(** * The mobile navigation drawer of the landing page

    A shallow embedding of [components/sections/Navigation.tsx] (the
    [Navigation] component: its state hook, its three effects and its event
    handlers) and of the click handler of [components/ui/Button.tsx], with
    the properties of the disclosure overlay stated over it.

    React is modelled as the code uses it: one boolean state cell, updates
    queued by the handlers and applied when the handler has returned, a
    commit that runs the previous effects' cleanups and then the effects
    whenever the cell changed, and nothing at all when it did not. The
    document is modelled by what the component reads and writes of it: the
    focused element, [document.body.style.overflow], the [keydown]
    listeners of [document], and a log of the calls made. *)

From Stdlib Require Import String Ascii.
From stdpp Require Import base option list strings gmap.

Local Open Scope string_scope.
Local Open Scope list_scope.

(** ** The JavaScript fragment the two files use *)

Module Js.

(** A call either returns or lets an exception escape. *)
Inductive Completion (A : Type) : Type :=
| Normal (a : A)
| Throw (message : string).
Arguments Normal {A} a.
Arguments Throw {A} message.

(** Code with side effects on a state [S]: the state it leaves behind and
    how it completed. What was written before a throw stays written. *)
Definition Eff (S A : Type) : Type := S → S * Completion A.

#[global] Instance Eff_ret {S} : MRet (Eff S) :=
  λ A (a : A) (s : S), (s, Normal a).

#[global] Instance Eff_bind {S} : MBind (Eff S) :=
  λ A B (k : A → Eff S B) (m : Eff S A) (s : S),
    match m s with
    | (s', Normal a) => k a s'
    | (s', Throw e) => (s', Throw e)
    end.

(** Statements that only change the state. *)
Definition exec {S} (f : S → S) : Eff S unit :=
  λ s, (f s, Normal ()).

(** Truthiness of an optional string ([x?: string]): [undefined] and the
    empty string are falsy. *)
Definition truthy (s : option string) : bool :=
  match s with
  | None => false
  | Some s => negb (String.eqb s "")
  end.

(** [a || d] on an optional string with a string default. *)
Definition orElse (s : option string) (d : string) : string :=
  if truthy s then default d s else d.

(** [s.startsWith(p)] *)
Definition startsWith (p s : string) : bool := String.prefix p s.

(** [s.substring(start)] *)
Definition substring (start : nat) (s : string) : string :=
  String.substring start (String.length s - start) s.

End Js.

(** ** The document as the component sees it *)

Module Dom.

(** Nodes of the page. The named ones are those [Navigation] renders. *)
Inductive Element : Type :=
| HamburgerButton
| CloseButton
| MenuLink (index : nat)
| MenuCta
| PageElement (node : nat).

#[global] Instance Element_eq_dec : EqDecision Element.
Proof. solve_decision. Defined.

(** The flags of an event object that handlers can set. *)
Record Flags : Type := {
  defaultPrevented : bool;
  propagationStopped : bool;
}.

Definition fresh : Flags :=
  {| defaultPrevented := false; propagationStopped := false |}.

(** [e.preventDefault()] *)
Definition preventDefault (e : Flags) : Flags :=
  {| defaultPrevented := true; propagationStopped := propagationStopped e |}.

Record KeyboardEvent : Type := {
  key : string;
  shiftKey : bool;
  flags : Flags;
}.

Definition keydown (k : string) (shift : bool) : KeyboardEvent :=
  {| key := k; shiftKey := shift; flags := fresh |}.

Definition preventDefaultKey (e : KeyboardEvent) : KeyboardEvent :=
  {| key := key e; shiftKey := shiftKey e; flags := preventDefault (flags e) |}.

(** The closures the effects register on [document]. A closure is the
    handler's code together with the values of the render it was created
    in. *)
Inductive Listener : Type :=
| HandleEscape (isMobileMenuOpen : bool)
| HandleTabKey (firstElement lastElement : option Element).

#[global] Instance Listener_eq_dec : EqDecision Listener.
Proof. solve_decision. Defined.

(** The calls on the document that the component makes. *)
Inductive Call : Type :=
| Focus (el : Element)
| SetOverflow (value : string)
| ScrollIntoView (el : Element)
| AddKeydown (l : Listener)
| RemoveKeydown (l : Listener).

#[global] Instance Call_eq_dec : EqDecision Call.
Proof. solve_decision. Defined.

Record Document : Type := {
  activeElement : option Element;   (* document.activeElement; None: nothing but the body *)
  overflow : string;                (* document.body.style.overflow *)
  keydownListeners : list Listener; (* in registration order *)
  calls : list Call;                (* oldest first *)
}.

Definition blank : Document :=
  {| activeElement := None; overflow := ""; keydownListeners := []; calls := [] |}.

(** [el.focus()] *)
Definition focus (el : Element) (d : Document) : Document :=
  {| activeElement := Some el;
     overflow := overflow d;
     keydownListeners := keydownListeners d;
     calls := calls d ++ [Focus el] |}.

(** [el?.focus()] *)
Definition focusOpt (el : option Element) (d : Document) : Document :=
  match el with
  | Some el => focus el d
  | None => d
  end.

(** [document.body.style.overflow = v] *)
Definition setOverflow (v : string) (d : Document) : Document :=
  {| activeElement := activeElement d;
     overflow := v;
     keydownListeners := keydownListeners d;
     calls := calls d ++ [SetOverflow v] |}.

(** [el.scrollIntoView({behavior: 'smooth', block: 'start'})] *)
Definition scrollIntoView (el : Element) (d : Document) : Document :=
  {| activeElement := activeElement d;
     overflow := overflow d;
     keydownListeners := keydownListeners d;
     calls := calls d ++ [ScrollIntoView el] |}.

(** [document.addEventListener('keydown', l)]: every effect run makes a
    new closure, so the listener is never one already registered. *)
Definition addEventListener (l : Listener) (d : Document) : Document :=
  {| activeElement := activeElement d;
     overflow := overflow d;
     keydownListeners := keydownListeners d ++ [l];
     calls := calls d ++ [AddKeydown l] |}.

Fixpoint removeFirst (l : Listener) (ls : list Listener) : list Listener :=
  match ls with
  | [] => []
  | x :: ls => if decide (x = l) then ls else x :: removeFirst l ls
  end.

(** [document.removeEventListener('keydown', l)] *)
Definition removeEventListener (l : Listener) (d : Document) : Document :=
  {| activeElement := activeElement d;
     overflow := overflow d;
     keydownListeners := removeFirst l (keydownListeners d);
     calls := calls d ++ [RemoveKeydown l] |}.

(** The user (or the browser's own tab order) moves the focus. *)
Definition moveFocus (el : option Element) (d : Document) : Document :=
  {| activeElement := el;
     overflow := overflow d;
     keydownListeners := keydownListeners d;
     calls := calls d |}.

(** [document.activeElement === el], where [el] may be [undefined]: a
    missing element is identical to nothing, not even to no focus. *)
Definition isActive (d : Document) (el : option Element) : bool :=
  match activeElement d, el with
  | Some a, Some e => bool_decide (a = e)
  | _, _ => false
  end.

Definition scrolled (d : Document) : list Element :=
  omap (λ c, match c with ScrollIntoView el => Some el | _ => None end) (calls d).


End Dom.

(** ** [components/ui/Button.tsx]: the click handler *)

Module Button.
Import Js.

(** The object pushed on [window.dataLayer]. *)
Record AnalyticsEvent : Type := {
  event : string;
  category : string;
  action : string;
  label : string;
  location : string;
  buttonText : string;
}.

(** [window.dataLayer], declared as [AnalyticsEvent[]]. An array that was
    frozen, or whose [push] a tag-manager script replaced by one that
    raises, is still of that type; [push] on it throws. *)
Inductive DataLayer : Type :=
| Extensible (entries : list AnalyticsEvent)
| NonExtensible (entries : list AnalyticsEvent).

(** [window.dataLayer.push(ev)] *)
Definition push (ev : AnalyticsEvent) : Eff DataLayer unit :=
  λ dl,
    match dl with
    | Extensible es => (Extensible (es ++ [ev]), Normal ())
    | NonExtensible es =>
        (dl, Throw "TypeError: Cannot add property, object is not extensible")
    end.

Inductive ReactNode : Type :=
| Text (s : string)
| Markup.

Section Handler.
(** [W] is whatever the [onClick] callback of the caller acts on. *)
Context {W : Type}.

Record Props : Type := {
  children : ReactNode;
  onClick : option (Dom.Flags → Eff W Dom.Flags);
  href : option string;
  disabled : bool;
  analyticsId : option string;
  analyticsLocation : option string;
}.

(** The browser window and the caller's state. [dataLayer] is [None]
    when [window.dataLayer] is undefined. *)
Record Page : Type := {
  dataLayer : option DataLayer;
  world : W;
}.

Definition onDataLayer {A} (m : Eff DataLayer A) (dl : DataLayer) : Eff Page A :=
  λ pg,
    let '(dl', r) := m dl in
    ({| dataLayer := Some dl'; world := world pg |}, r).

Definition onWorld {A} (m : Eff W A) : Eff Page A :=
  λ pg,
    let '(w', r) := m (world pg) in
    ({| dataLayer := dataLayer pg; world := w' |}, r).

Definition ctaClick (p : Props) : AnalyticsEvent :=
  {| event := "cta_click";
     category := "engagement";
     action := "click";
     label := default "" (analyticsId p);
     location := orElse (analyticsLocation p) "unknown";
     buttonText := match children p with
                   | Text s => s
                   | Markup => default "" (analyticsId p)
                   end |}.

(** Lines 74-83: the analytics push, guarded by the identifier and by
    the presence of [window.dataLayer] (the handler runs in a browser,
    so [window] itself is defined). *)
Definition track (p : Props) : Eff Page unit :=
  λ pg,
    if truthy (analyticsId p) then
      match dataLayer pg with
      | Some dl => onDataLayer (push (ctaClick p)) dl pg
      | None => (pg, Normal ())
      end
    else (pg, Normal ()).

(** Lines 85-87: the caller's handler, only without [href]. *)
Definition forward (p : Props) (e : Dom.Flags) : Eff Page Dom.Flags :=
  match onClick p with
  | Some f => if negb (truthy (href p)) then onWorld (f e) else mret e
  | None => mret e
  end.

Definition handleClick (p : Props) (e : Dom.Flags) : Eff Page Dom.Flags :=
  if disabled p then mret e
  else _ ← track p; forward p e.

End Handler.

Arguments Props : clear implicits.
Arguments Page : clear implicits.

End Button.

(** ** [components/sections/Navigation.tsx] *)

Module Navigation.
Import Js Dom.

Record NavigationLink : Type := {
  link_label : string;
  link_href : string;
  link_ariaLabel : option string;
}.

Inductive Variant : Type := primary | secondary | ghost.

Record CTAButton (Host : Type) : Type := {
  cta_label : string;
  cta_href : string;
  cta_variant : option Variant;
  cta_onClick : option (Eff Host unit);
}.
Arguments cta_label {Host} c.
Arguments cta_href {Host} c.
Arguments cta_variant {Host} c.
Arguments cta_onClick {Host} c.

(** The two ways the code calls [setIsMobileMenuOpen]. *)
Inductive Update : Type :=
| SetTo (value : bool)   (* setIsMobileMenuOpen(value) *)
| Negate.                (* setIsMobileMenuOpen((prev) => !prev) *)

Definition applyUpdate (prev : bool) (u : Update) : bool :=
  match u with
  | SetTo v => v
  | Negate => negb prev
  end.

(** What the cleanups returned by the last effect run will undo. The
    scroll effect's cleanup needs nothing: it always writes [''].  *)
Record Cleanups : Type := {
  escapeListener : Listener;
  tabListener : option Listener;
}.

(** The user's inputs. The handlers are taken as the code binds them;
    the backdrop, the close button and the menu's links stay in the
    document while the exit animation runs, so a click on them can
    arrive when the state is already closed. *)
Inductive Input : Type :=
| ClickHamburger
| ClickCloseButton
| ClickBackdrop
| ClickLink (href : string)
| ClickDesktopCta
| ClickMenuCta
| Keydown (key : string) (shiftKey : bool)
| MoveFocus (target : option Element).

Section Component.
(** [Host] is the state of the page around the component, on which
    [ctaButton.onClick] acts. *)
Context {Host : Type}.

(** The props; [links] only matters through what it renders, see
    [renderedPanel] below. *)
Context (ctaButton : CTAButton Host).

(** The page around the component:
    - [menuPanel]: the descendants of the mounted menu panel that match
      the selector of the focus-trap effect, in document order;
    - [hamburgerButton]: [hamburgerButtonRef.current], [None] when the
      button is not in the document;
    - [elementIds]: [document.getElementById]. *)
Context (menuPanel : list Element)
        (hamburgerButton : option Element)
        (elementIds : gmap string Element).

Definition getElementById (id : string) : option Element := elementIds !! id.

(** What a handler works on: the document, the queue of state updates
    React will apply when it has returned, and the host page. *)
Record Ctx : Type := {
  doc : Document;
  queue : list Update;
  host : Host;
}.

Definition onDoc (f : Document → Document) (c : Ctx) : Ctx :=
  {| doc := f (doc c); queue := queue c; host := host c |}.

Definition onHost {A} (m : Eff Host A) : Eff Ctx A :=
  λ c,
    let '(h, r) := m (host c) in
    ({| doc := doc c; queue := queue c; host := h |}, r).

Definition setIsMobileMenuOpen (u : Update) (c : Ctx) : Ctx :=
  {| doc := doc c; queue := queue c ++ [u]; host := host c |}.

(** *** The handlers, lines 86-120 *)

Definition handleLinkClick (e : Flags) (href : string) (c : Ctx) : Flags * Ctx :=
  if startsWith "#" href then
    let e := preventDefault e in
    let targetId := substring 1 href in
    let targetElement := getElementById targetId in
    let c := match targetElement with
             | Some el => onDoc (scrollIntoView el) c
             | None => c
             end in
    (e, setIsMobileMenuOpen (SetTo false) c)
  else (e, c).

Definition toggleMobileMenu (c : Ctx) : Ctx :=
  setIsMobileMenuOpen Negate c.

Definition closeMobileMenu (c : Ctx) : Ctx :=
  setIsMobileMenuOpen (SetTo false) c.

(** *** The keydown listeners, lines 126-132 and 158-175 *)

Definition handleEscape (isMobileMenuOpen : bool)
    (e : KeyboardEvent) (c : Ctx) : KeyboardEvent * Ctx :=
  if String.eqb (key e) "Escape" && isMobileMenuOpen then
    let c := closeMobileMenu c in
    (e, onDoc (focusOpt hamburgerButton) c)
  else (e, c).

Definition handleTabKey (firstElement lastElement : option Element)
    (e : KeyboardEvent) (c : Ctx) : KeyboardEvent * Ctx :=
  if negb (String.eqb (key e) "Tab") then (e, c)
  else if shiftKey e then
    if isActive (doc c) firstElement then
      (preventDefaultKey e, onDoc (focusOpt lastElement) c)
    else (e, c)
  else
    if isActive (doc c) lastElement then
      (preventDefaultKey e, onDoc (focusOpt firstElement) c)
    else (e, c).

Definition call (l : Listener) : KeyboardEvent → Ctx → KeyboardEvent * Ctx :=
  match l with
  | HandleEscape isMobileMenuOpen => handleEscape isMobileMenuOpen
  | HandleTabKey firstElement lastElement => handleTabKey firstElement lastElement
  end.

(** A [keydown] on [document]: the listeners registered when the
    dispatch starts are called in registration order on the one event
    object. *)
Fixpoint dispatchKeydown (ls : list Listener)
    (e : KeyboardEvent) (c : Ctx) : KeyboardEvent * Ctx :=
  match ls with
  | [] => (e, c)
  | l :: ls => let '(e, c) := call l e c in dispatchKeydown ls e c
  end.

(** *** The effects, lines 125-194, all with dependency
    [[isMobileMenuOpen]] *)

Definition escapeEffect (isMobileMenuOpen : bool) (d : Document) : Document * Listener :=
  let handleEscape := HandleEscape isMobileMenuOpen in
  (addEventListener handleEscape d, handleEscape).

(** On an empty list both [focusableElements[0]] and
    [focusableElements[length - 1]] are [undefined]; the truncated
    subtraction gives index 0, which is [None] there as well. *)
Definition focusTrapEffect (isMobileMenuOpen : bool)
    (mobileMenuRef : option (list Element)) (d : Document)
    : Document * option Listener :=
  if negb isMobileMenuOpen then (d, None)
  else match mobileMenuRef with
       | None => (d, None)
       | Some focusableElements =>
           let firstElement := focusableElements !! 0 in
           let lastElement :=
             focusableElements !! (length focusableElements - 1) in
           let d := focusOpt firstElement d in
           let handleTabKey := HandleTabKey firstElement lastElement in
           (addEventListener handleTabKey d, Some handleTabKey)
       end.

Definition scrollLockEffect (isMobileMenuOpen : bool) (d : Document) : Document :=
  if isMobileMenuOpen then setOverflow "hidden" d else setOverflow "" d.

(** The panel is rendered, and its ref set, exactly when the state is
    open; refs are set before effects run. *)
Definition mobileMenuRef (isMobileMenuOpen : bool) : option (list Element) :=
  if isMobileMenuOpen then Some menuPanel else None.

Definition runEffects (isMobileMenuOpen : bool) (d : Document) : Document * Cleanups :=
  let '(d, esc) := escapeEffect isMobileMenuOpen d in
  let '(d, tab) := focusTrapEffect isMobileMenuOpen (mobileMenuRef isMobileMenuOpen) d in
  let d := scrollLockEffect isMobileMenuOpen d in
  (d, {| escapeListener := esc; tabListener := tab |}).

Definition runCleanups (cl : Cleanups) (d : Document) : Document :=
  let d := removeEventListener (escapeListener cl) d in
  let d := match tabListener cl with
           | Some l => removeEventListener l d
           | None => d
           end in
  setOverflow "" d.

(** *** The mounted component *)

Record Nav : Type := {
  isMobileMenuOpen : bool;
  cleanups : Cleanups;
  document : Document;
  dataLayer : option Button.DataLayer;
  page : Host;
}.

(** [useState(false)] and the first run of the effects. *)
Definition mount (d : Document) (dl : option Button.DataLayer) (h : Host) : Nav :=
  let '(d, cl) := runEffects false d in
  {| isMobileMenuOpen := false; cleanups := cl; document := d;
     dataLayer := dl; page := h |}.

Definition enter (s : Nav) : Ctx :=
  {| doc := document s; queue := []; host := page s |}.

(** After the handler: apply the queued updates; when the state cell
    changed, re-render, run the cleanups of the previous effects and
    then the effects; when it did not, React bails out. *)
Definition settle (s : Nav) (dl : option Button.DataLayer) (c : Ctx) : Nav :=
  let next := foldl applyUpdate (isMobileMenuOpen s) (queue c) in
  if bool_decide (next = isMobileMenuOpen s) then
    {| isMobileMenuOpen := isMobileMenuOpen s; cleanups := cleanups s;
       document := doc c; dataLayer := dl; page := host c |}
  else
    let '(d, cl) := runEffects next (runCleanups (cleanups s) (doc c)) in
    {| isMobileMenuOpen := next; cleanups := cl; document := d;
       dataLayer := dl; page := host c |}.

(** *** The two call-to-action buttons, lines 255-264 and 393-406 *)

Definition desktopCta : Button.Props Ctx :=
  {| Button.children := Button.Text (cta_label ctaButton);
     Button.onClick :=
       (λ f (e : Flags), _ ← onHost f; mret e) <$> cta_onClick ctaButton;
     Button.href := Some (cta_href ctaButton);
     Button.disabled := false;
     Button.analyticsId := Some "nav-cta";
     Button.analyticsLocation := Some "navigation" |}.

Definition menuCta : Button.Props Ctx :=
  {| Button.children := Button.Text (cta_label ctaButton);
     Button.onClick := Some (λ e : Flags,
       _ ← match cta_onClick ctaButton with
           | Some f => onHost f
           | None => mret ()
           end;
       _ ← exec closeMobileMenu;
       mret e);
     Button.href := Some (cta_href ctaButton);
     Button.disabled := false;
     Button.analyticsId := Some "mobile-nav-cta";
     Button.analyticsLocation := Some "mobile-navigation" |}.

(** *** One input: the handler bound to it, then React *)

Definition returned (c : Ctx) (dl : option Button.DataLayer) (e : Flags)
    : Button.Page Ctx * Completion Flags :=
  ({| Button.dataLayer := dl; Button.world := c |}, Normal e).

Definition handle (i : Input) (s : Nav) : Button.Page Ctx * Completion Flags :=
  match i with
  | ClickHamburger =>
      returned (toggleMobileMenu (enter s)) (dataLayer s) fresh
  | ClickCloseButton | ClickBackdrop =>
      returned (closeMobileMenu (enter s)) (dataLayer s) fresh
  | ClickLink href =>
      let '(e, c) := handleLinkClick fresh href (enter s) in
      returned c (dataLayer s) e
  | ClickDesktopCta =>
      Button.handleClick desktopCta fresh
        {| Button.dataLayer := dataLayer s; Button.world := enter s |}
  | ClickMenuCta =>
      Button.handleClick menuCta fresh
        {| Button.dataLayer := dataLayer s; Button.world := enter s |}
  | Keydown k shift =>
      let '(e, c) :=
        dispatchKeydown (keydownListeners (document s)) (keydown k shift) (enter s) in
      returned c (dataLayer s) (flags e)
  | MoveFocus el =>
      returned (onDoc (moveFocus el) (enter s)) (dataLayer s) fresh
  end.

(** An exception that escapes a handler is reported by React and the
    page goes on; updates queued before it are applied all the same. *)
Definition dispatch (i : Input) (s : Nav) : Nav * Completion Flags :=
  let '(pg, r) := handle i s in
  (settle s (Button.dataLayer pg) (Button.world pg), r).

Definition step (i : Input) (s : Nav) : Nav := fst (dispatch i s).

(** The states the component can be in: mounted on a document on which
    it has done nothing yet, wherever the focus is, then any inputs. *)
Inductive reachable : Nav → Prop :=
| reachable_mount a dl h :
    reachable (mount (moveFocus a blank) dl h)
| reachable_step i s :
    reachable s → reachable (step i s).

End Component.

(** What the selector of the focus-trap effect finds in the panel as the
    component renders it: the close button, one anchor per link, and the
    call-to-action (an anchor with [href], or an enabled button). *)
Definition renderedPanel (links : list NavigationLink) : list Element :=
  CloseButton :: imap (λ i _, MenuLink i) links ++ [MenuCta].

End Navigation.

(** ** A page to run the component on *)

Module Sample.
Import Js Dom Navigation.

Definition links : list NavigationLink :=
  [ {| link_label := "Features"; link_href := "#features"; link_ariaLabel := None |};
    {| link_label := "About"; link_href := "/about"; link_ariaLabel := None |} ].

Definition ctaButton : CTAButton unit :=
  {| cta_label := "Get Started"; cta_href := "#contact";
     cta_variant := Some primary; cta_onClick := None |}.

Definition menuPanel : list Element := renderedPanel links.

Definition elementIds : gmap string Element :=
  {[ "features" := PageElement 1; "contact" := PageElement 2 ]}.

Definition dispatch : Input → Nav → Nav * Completion Flags :=
  Navigation.dispatch ctaButton menuPanel (Some HamburgerButton) elementIds.

Definition step : Input → Nav → Nav :=
  Navigation.step ctaButton menuPanel (Some HamburgerButton) elementIds.

(** Freshly mounted, and with the menu opened by the hamburger button. *)
Definition closed : Nav :=
  mount menuPanel (moveFocus (Some HamburgerButton) blank)
    (Some (Button.Extensible [])) tt.

Definition opened : Nav := step ClickHamburger closed.

Definition reachable : Nav → Prop :=
  Navigation.reachable ctaButton menuPanel (Some HamburgerButton) elementIds.

(** [window.dataLayer = Object.freeze([])] *)
Definition frozen : Button.DataLayer := Button.NonExtensible [].

(** The component with a call-to-action that has no destination, so
    that [Button] renders a button and forwards the click. *)
Definition bareCta : CTAButton unit :=
  {| cta_label := "Get Started"; cta_href := "";
     cta_variant := Some primary; cta_onClick := None |}.

Definition stepBare : Input → Nav → Nav :=
  Navigation.step bareCta menuPanel (Some HamburgerButton) elementIds.

Definition dispatchBare : Input → Nav → Nav * Completion Flags :=
  Navigation.dispatch bareCta menuPanel (Some HamburgerButton) elementIds.

(** The opened menu on a page whose data layer is [dl]. *)
Definition openedOn (dl : option Button.DataLayer) : Nav :=
  stepBare ClickHamburger
    (mount menuPanel (moveFocus (Some HamburgerButton) blank) dl tt).

(** The "Tracked Button" of [components/ui/__demo__.tsx]; its [onClick]
    writes a line on the console. *)
Definition trackedButton : Button.Props (list string) :=
  {| Button.children := Button.Text "Tracked Button";
     Button.onClick :=
       Some (λ e console, (console ++ ["Button clicked!"], Normal e));
     Button.href := None;
     Button.disabled := false;
     Button.analyticsId := Some "hero-cta";
     Button.analyticsLocation := Some "demo-page" |}.

(** The same button rendered as a link. *)
Definition trackedLink : Button.Props (list string) :=
  {| Button.children := Button.Text "Tracked Button";
     Button.onClick := Button.onClick trackedButton;
     Button.href := Some "/pricing";
     Button.disabled := false;
     Button.analyticsId := Some "hero-cta";
     Button.analyticsLocation := Some "demo-page" |}.

End Sample.

(** ** What is observed of a run *)

Module Observe.
Import Js Dom Navigation.

Definition occurrences (c : Call) (l : list Call) : nat :=
  length (filter (λ x, x = c) l).

(** The scroll lock is the write of ['hidden'] to the body's overflow,
    its release the write of ['']. *)
Definition locks (d : Document) : nat :=
  occurrences (SetOverflow "hidden") (calls d).

Definition unlocks (d : Document) : nat :=
  occurrences (SetOverflow "") (calls d).

(** The calls a handler makes, as opposed to an effect or a cleanup. *)
Definition byHandler (c : Call) : bool :=
  match c with
  | Focus _ | ScrollIntoView _ => true
  | _ => false
  end.

(** [d'] is [d] after handlers only: listeners and overflow untouched,
    the log extended by handler calls. *)
Definition handled (d d' : Document) : Prop :=
  keydownListeners d' = keydownListeners d ∧
  overflow d' = overflow d ∧
  ∃ extra, calls d' = calls d ++ extra ∧ forallb byHandler extra = true.

(** The focus-trap listener for a panel. *)
Definition trap (menuPanel : list Element) : Listener :=
  HandleTabKey (head menuPanel) (last menuPanel).

Definition listenersWhen (menuPanel : list Element) (isOpen : bool) : list Listener :=
  HandleEscape isOpen :: (if isOpen then [trap menuPanel] else []).

Definition cleanupsWhen (menuPanel : list Element) (isOpen : bool) : Cleanups :=
  {| escapeListener := HandleEscape isOpen;
     tabListener := if isOpen then Some (trap menuPanel) else None |}.

Definition overflowWhen (isOpen : bool) : string :=
  if isOpen then "hidden" else "".

(** The invariant of the mounted component. *)
Record consistent {Host} (menuPanel : list Element) (s : @Nav Host) : Prop := {
  consistent_cleanups :
    cleanups s = cleanupsWhen menuPanel (isMobileMenuOpen s);
  consistent_listeners :
    keydownListeners (document s) = listenersWhen menuPanel (isMobileMenuOpen s);
  consistent_overflow :
    overflow (document s) = overflowWhen (isMobileMenuOpen s);
  consistent_writes :
    unlocks (document s) + (if isMobileMenuOpen s then 1 else 0)
    = 3 * locks (document s) + (if isMobileMenuOpen s then 0 else 1);
}.

(** The state [s] after a handler has called [el.focus()] and done
    nothing else. *)
Definition refocused {Host} (el : Element) (s : @Nav Host) : @Nav Host :=
  {| isMobileMenuOpen := isMobileMenuOpen s;
     cleanups := cleanups s;
     document := focus el (document s);
     dataLayer := dataLayer s;
     page := page s |}.

(** A button with the same props but no [onClick]. *)
Definition withoutOnClick {W} (p : Button.Props W) : Button.Props W :=
  {| Button.children := Button.children p;
     Button.onClick := None;
     Button.href := Button.href p;
     Button.disabled := Button.disabled p;
     Button.analyticsId := Button.analyticsId p;
     Button.analyticsLocation := Button.analyticsLocation p |}.

End Observe.

(** ** The rest of the component's life *)

Module Lifecycle.
Import Js Dom Navigation.


(** The elements [focus()] was called on, oldest first. *)
Definition focusCalls (d : Document) : list Element :=
  omap (λ c, match c with Focus el => Some el | _ => None end) (calls d).

(** The inputs that go through [Button]. *)
Definition isCta (i : Input) : bool :=
  match i with
  | ClickDesktopCta | ClickMenuCta => true
  | _ => false
  end.

(** The calls the component may make on the document: [focus()] on the
    hamburger button or on the first or last focusable element of the
    panel, [scrollIntoView()] on an element that [getElementById] returns,
    and its own bookkeeping. *)
Definition permitted (menuPanel : list Element)
    (hamburgerButton : option Element) (elementIds : gmap string Element)
    (c : Call) : Prop :=
  match c with
  | Focus el =>
      hamburgerButton = Some el ∨ head menuPanel = Some el ∨ last menuPanel = Some el
  | ScrollIntoView el => ∃ id, elementIds !! id = Some el
  | _ => True
  end.

(** A queue of state updates that can only close the menu. *)
Definition closing (q : list Update) : Prop := Forall (λ u, u = SetTo false) q.

(** The event [Button] pushes for a given identifier, location and text. *)
Definition ctaClickEvent (id location text : string) : Button.AnalyticsEvent :=
  {| Button.event := "cta_click";
     Button.category := "engagement";
     Button.action := "click";
     Button.label := id;
     Button.location := location;
     Button.buttonText := text |}.

(** [n] activations of the hamburger button in a row. *)
Definition hamburgerTimes {Host} (ctaButton : CTAButton Host)
    (menuPanel : list Element) (hamburgerButton : option Element)
    (elementIds : gmap string Element) (n : nat) (s : @Nav Host) : @Nav Host :=
  Nat.iter n (step ctaButton menuPanel hamburgerButton elementIds ClickHamburger) s.

End Lifecycle.

(** ** Class names: [baseStyles] of [Button.tsx], lines 22-50 and 90-102 *)

Module ClassNames.

(** A JavaScript string as its UTF-16 code units. *)
Definition units (s : string) : list N :=
  map N_of_ascii (list_ascii_of_string s).

(** The class [\s] of a regular expression without flags, which is also
    what [trim] strips: tab, line feed, vertical tab, form feed, carriage
    return, space, no-break space, U+1680, U+2000 to U+200A, the line and
    paragraph separators, U+202F, U+205F, U+3000 and the byte-order mark. *)
Definition isSpace (c : N) : bool :=
  ((9 <=? c) && (c <=? 13) || (c =? 32) || (c =? 160) || (c =? 5760)
   || (8192 <=? c) && (c <=? 8202) || (c =? 8232) || (c =? 8233)
   || (c =? 8239) || (c =? 8287) || (c =? 12288) || (c =? 65279))%N.

Fixpoint trimStart (s : list N) : list N :=
  match s with
  | [] => []
  | c :: rest => if isSpace c then trimStart rest else s
  end.

Definition trimEnd (s : list N) : list N := rev (trimStart (rev s)).

(** [s.trim()] *)
Definition trim (s : list N) : list N := trimEnd (trimStart s).

(** [s.replace(/\s+/g, ' ')]: every maximal run of white space becomes one
    space; [inRun] says that the run the scan is in has been replaced. *)
Fixpoint replaceRuns (inRun : bool) (s : list N) : list N :=
  match s with
  | [] => []
  | c :: rest =>
      if isSpace c then
        if inRun then replaceRuns true rest else 32%N :: replaceRuns true rest
      else c :: replaceRuns false rest
  end.

Definition replaceSpaces (s : list N) : list N := replaceRuns false s.

(** [.trim().replace(/\s+/g, ' ')], lines 101-102. *)
Definition normalize (s : list N) : list N := replaceSpaces (trim s).

Inductive Variant : Type := primary | secondary | ghost.
Inductive Size : Type := sm | md | lg.

(** The three [switch] statements; [None] is a value outside the cases,
    which takes the [default] branch. *)
Definition getVariantStyles (variant : option Variant) : string :=
  match variant with
  | Some primary => "bg-neutral-900 !text-white hover:bg-neutral-800"
  | Some secondary => "bg-white text-neutral-900 hover:bg-neutral-50"
  | Some ghost => "bg-transparent hover:bg-white/10 border border-white/80 !text-white"
  | None => "bg-neutral-900 !text-white hover:bg-neutral-800"
  end.

Definition getSizeStyles (size : option Size) : string :=
  match size with
  | Some sm => "h-10 px-5 text-sm min-h-[44px]"
  | Some md => "h-11 px-6 text-base min-h-[44px]"
  | Some lg => "h-13 px-8 text-lg min-h-[44px]"
  | None => "h-11 px-6 text-base min-h-[44px]"
  end.

Definition getDisabledStyles (disabled : bool) : string :=
  if disabled then "opacity-50 cursor-not-allowed pointer-events-none"
  else "cursor-pointer".

(** A line break of the template literal and the indentation after it. *)
Definition line : list N := 10%N :: units "      ".

(** The template literal of lines 90-100, before it is normalised. *)
Definition template (size : option Size) (disabled : bool)
    (variant : option Variant) (className : list N) : list N :=
  line ++ units "inline-flex items-center justify-center gap-2"
  ++ line ++ units "font-medium rounded-lg"
  ++ line ++ units "transition-all duration-200 ease-in-out"
  ++ line ++ units "focus:outline-none focus:ring-2 focus:ring-primary-500 focus:ring-offset-2"
  ++ line ++ units "active:scale-95"
  ++ line ++ units (getSizeStyles size)
  ++ line ++ units (getDisabledStyles disabled)
  ++ line ++ units (getVariantStyles variant)
  ++ line ++ className
  ++ 10%N :: units "    ".

Definition baseStyles (size : option Size) (disabled : bool)
    (variant : option Variant) (className : list N) : list N :=
  normalize (template size disabled variant className).

(** The classes every button has, in the order of the template. *)
Definition fixedClasses : list string :=
  [ "inline-flex"; "items-center"; "justify-center"; "gap-2";
    "font-medium"; "rounded-lg";
    "transition-all"; "duration-200"; "ease-in-out";
    "focus:outline-none"; "focus:ring-2"; "focus:ring-primary-500";
    "focus:ring-offset-2"; "active:scale-95" ].

(** The class list of a [className] attribute: its maximal runs of
    characters that are not white space. *)
Definition boundary (s : list N) : bool :=
  match s with
  | [] => true
  | c :: _ => isSpace c
  end.

Fixpoint tokens (s : list N) : list (list N) :=
  match s with
  | [] => []
  | c :: rest =>
      if isSpace c then tokens rest
      else if boundary rest then [c] :: tokens rest
      else match tokens rest with
           | t :: ts => (c :: t) :: ts
           | [] => [[c]]
           end
  end.

(** Tokens joined by single spaces. *)
Definition unwords (ts : list (list N)) : list N :=
  match ts with
  | [] => []
  | t :: ts => t ++ concat (map (cons 32%N) ts)
  end.

(** A class name: not empty and without white space. *)
Definition isWord (t : list N) : Prop :=
  t ≠ [] ∧ Forall (λ c, isSpace c = false) t.

Definition leading (s : list N) : bool :=
  match s with
  | [] => false
  | c :: _ => isSpace c
  end.

Definition trailing (s : list N) : bool :=
  match last s with
  | Some c => isSpace c
  | None => false
  end.

End ClassNames.

(** ** The icon wrapper ([Icon]): [getColorStyles] *)

Module Icon.
Import Js.


End Icon.

(** ** The contact form, [Navigation.tsx] lines 886-906 *)

Module Contact.

(** [formData] is a plain object used as a map from field name to text. *)
Definition fields : list string :=
  ["firstName"; "lastName"; "email"; "company"; "message"].

Definition initial : gmap string string :=
  {[ "firstName" := ""; "lastName" := ""; "email" := "";
     "company" := ""; "message" := "" ]}.

(** [e.target] of a change event. *)
Record Target : Type := {
  name : string;
  value : string;
}.

(** The updater [handleInputChange] passes to [setFormData]:
    [(prev) => ({ ...prev, [name]: value })]. *)
Definition handleInputChange (target : Target)
    (prev : gmap string string) : gmap string string :=
  <[name target := value target]> prev.

(** React applies the queued updaters in order. *)
Definition typed (changes : list Target) (formData : gmap string string)
    : gmap string string :=
  foldl (λ prev target, handleInputChange target prev) formData changes.

(** What the controlled input named [field] shows: [formData[field]]. *)
Definition shown (formData : gmap string string) (field : string) : option string :=
  formData !! field.

End Contact.

(** ** The hero's call-to-action buttons, [Hero.tsx] lines 134-157 *)

Module Hero.
Import Js.

Record Cta : Type := {
  label : string;
  href : string;
  analyticsId : option string;
}.

Definition button {W} (fallbackId : string) (cta : Cta) : Button.Props W :=
  {| Button.children := Button.Text (label cta);
     Button.onClick := None;
     Button.href := Some (href cta);
     Button.disabled := false;
     Button.analyticsId := Some (orElse (analyticsId cta) fallbackId);
     Button.analyticsLocation := Some "hero" |}.

Definition primaryButton {W} : Cta → Button.Props W := button "hero-primary-cta".
Definition secondaryButton {W} : Cta → Button.Props W := button "hero-secondary-cta".

End Hero.

(** ** [components/ErrorBoundary.tsx] *)

Module ErrorBoundary.
Import Js.

Record Error : Type := {
  message : string;
  stack : option string;
}.

Record ErrorInfo : Type := {
  componentStack : string;
}.

Record State : Type := {
  hasError : bool;
  error : option Error;
  errorInfo : option ErrorInfo;
}.

(** The constructor's state. *)
Definition initial : State :=
  {| hasError := false; error := None; errorInfo := None |}.

(** Where the boundary runs: [process.env.NODE_ENV === 'development'] and
    whether [window.Sentry] is there. *)
Record Env : Type := {
  development : bool;
  sentry : bool;
}.

(** What the boundary sends out. *)
Inductive Output : Type :=
| ConsoleError (text : string) (detail : string)
| CaptureException (error : Error) (componentStack : string).

(** [getDerivedStateFromError] returns a partial state, which React merges
    into the current one. *)
Definition getDerivedStateFromError (err : Error) (s : State) : State :=
  {| hasError := true; error := Some err; errorInfo := errorInfo s |}.

Definition reportToSentry (env : Env) (err : Error) (info : ErrorInfo) : list Output :=
  if sentry env then [CaptureException err (componentStack info)]
  else [ConsoleError "Sentry not configured. Error:" (message err)].

Definition componentDidCatch (env : Env) (err : Error) (info : ErrorInfo)
    (s : State) : State * list Output :=
  let logged :=
    if development env then
      [ConsoleError "Error caught by ErrorBoundary:" (message err);
       ConsoleError "Error Info:" (componentStack info)]
    else [] in
  ({| hasError := hasError s; error := error s; errorInfo := Some info |},
   logged ++ reportToSentry env err info).

(** An error thrown below the boundary: React derives the state, commits
    and calls [componentDidCatch]. *)
Definition catch (env : Env) (err : Error) (info : ErrorInfo)
    (s : State) : State * list Output :=
  componentDidCatch env err info (getDerivedStateFromError err s).

Definition handleReset (s : State) : State :=
  {| hasError := false; error := None; errorInfo := None |}.

(** What [render] returns. *)
Inductive View : Type :=
| Children
| CustomFallback (node : Button.ReactNode)
| DefaultFallback (details : option Error).

(** Truthiness of the optional [fallback] node: an absent node and the
    empty text are falsy. *)
Definition present (node : option Button.ReactNode) : option Button.ReactNode :=
  match node with
  | Some (Button.Text "") => None
  | other => other
  end.

Definition render (env : Env) (fallback : option Button.ReactNode) (s : State) : View :=
  if hasError s then
    match present fallback with
    | Some node => CustomFallback node
    | None => DefaultFallback (if development env then error s else None)
    end
  else Children.

(** Whether an output is a report of the error, to Sentry or in its place. *)
Definition isReport (o : Output) : bool :=
  match o with
  | CaptureException _ _ => true
  | ConsoleError text _ => String.eqb text "Sentry not configured. Error:"
  end.

End ErrorBoundary.

(** ** More pages to run the code on *)

Module Pages.
Import Js Dom Navigation.

(** The sample page with a menu panel that has nothing to focus. *)
Definition stepEmpty : Input → Nav → Nav :=
  Navigation.step Sample.ctaButton [] (Some HamburgerButton) Sample.elementIds.

Definition dispatchEmpty : Input → Nav → Nav * Completion Flags :=
  Navigation.dispatch Sample.ctaButton [] (Some HamburgerButton) Sample.elementIds.

Definition reachableEmpty : Nav → Prop :=
  Navigation.reachable Sample.ctaButton [] (Some HamburgerButton) Sample.elementIds.

Definition openedEmpty : Nav :=
  stepEmpty ClickHamburger
    (mount [] (moveFocus (Some HamburgerButton) blank)
       (Some (Button.Extensible [])) tt).

(** The sample menu after its link to the contact section was used. *)
Definition afterContactLink : Nav :=
  Sample.step (ClickLink "#contact") Sample.opened.

(** A visitor fills in the contact form, correcting the first name. *)
Definition typing : list Contact.Target :=
  [ {| Contact.name := "firstName"; Contact.value := "Ad" |};
    {| Contact.name := "email"; Contact.value := "ada@example.org" |};
    {| Contact.name := "firstName"; Contact.value := "Ada" |} ].

(** A call-to-action of the hero without an analytics identifier. *)
Definition anonymous : Hero.Cta :=
  {| Hero.label := "Get Started"; Hero.href := "#contact";
     Hero.analyticsId := None |}.

(** An error below the boundary, in production with Sentry loaded. *)
Definition production : ErrorBoundary.Env :=
  {| ErrorBoundary.development := false; ErrorBoundary.sentry := true |}.

Definition renderError : ErrorBoundary.Error :=
  {| ErrorBoundary.message := "Cannot read properties of undefined";
     ErrorBoundary.stack := None |}.

Definition inHero : ErrorBoundary.ErrorInfo :=
  {| ErrorBoundary.componentStack := "at Hero" |}.

End Pages.

(** ** Properties *)

Section DocumentFacts.
Import Dom Observe.

Lemma occurrences_app c l1 l2 :
  occurrences c (l1 ++ l2) = occurrences c l1 + occurrences c l2.
Proof. unfold occurrences. by rewrite filter_app, length_app. Qed.

Lemma occurrences_byHandler c extra :
  byHandler c = false → forallb byHandler extra = true → occurrences c extra = 0.
Proof.
  intros Hc. induction extra as [|x extra IH]; [done|].
  cbn [forallb]. intros [Hx Hrest]%andb_prop.
  unfold occurrences in *. rewrite filter_cons.
  destruct (decide (x = c)) as [->|_]; [congruence|auto].
Qed.

Lemma handled_refl d : handled d d.
Proof. repeat split. exists []. by rewrite app_nil_r. Qed.

Lemma handled_trans d1 d2 d3 : handled d1 d2 → handled d2 d3 → handled d1 d3.
Proof.
  intros (Hl & Ho & e1 & Hc & He1) (Hl' & Ho' & e2 & Hc' & He2).
  repeat split; [congruence..|].
  exists (e1 ++ e2). rewrite Hc', Hc, <- app_assoc. split; [done|].
  rewrite forallb_app. by rewrite He1, He2.
Qed.

Lemma handled_focusOpt el d : handled d (focusOpt el d).
Proof.
  destruct el as [el|]; [|apply handled_refl].
  repeat split. by exists [Focus el].
Qed.

Lemma handled_scrollIntoView el d : handled d (scrollIntoView el d).
Proof. repeat split. by exists [ScrollIntoView el]. Qed.

Lemma handled_moveFocus el d : handled d (moveFocus el d).
Proof. repeat split. exists []. by rewrite app_nil_r. Qed.

Lemma handled_locks d d' : handled d d' → locks d' = locks d.
Proof.
  intros (_ & _ & extra & Hc & He). unfold locks.
  rewrite Hc, occurrences_app, (occurrences_byHandler _ extra); [lia|done..].
Qed.

Lemma handled_unlocks d d' : handled d d' → unlocks d' = unlocks d.
Proof.
  intros (_ & _ & extra & Hc & He). unfold unlocks.
  rewrite Hc, occurrences_app, (occurrences_byHandler _ extra); [lia|done..].
Qed.

Lemma head_lookup_0 (l : list Element) : l !! 0 = head l.
Proof. by destruct l. Qed.

Lemma last_lookup_length (l : list Element) : l !! (length l - 1) = last l.
Proof.
  rewrite last_lookup. destruct l as [|x l]; [done|].
  cbn [length]. by replace (S (length l) - 1) with (pred (S (length l))) by lia.
Qed.

End DocumentFacts.

Section NavigationFacts.
Import Js Dom Navigation Observe.

Context {Host : Type} (ctaButton : CTAButton Host)
        (menuPanel : list Element)
        (hamburgerButton : option Element)
        (elementIds : gmap string Element).

Local Abbreviation handle := (Navigation.handle ctaButton hamburgerButton elementIds).
Local Abbreviation dispatch := (Navigation.dispatch ctaButton menuPanel hamburgerButton elementIds).
Local Abbreviation step := (Navigation.step ctaButton menuPanel hamburgerButton elementIds).
Local Abbreviation reachable := (Navigation.reachable ctaButton menuPanel hamburgerButton elementIds).
Local Abbreviation settle := (Navigation.settle menuPanel).
Local Abbreviation Ctx := (@Navigation.Ctx Host).
Local Abbreviation Nav := (@Navigation.Nav Host).

(** *** Handlers leave listeners and overflow alone *)

Lemma handleLinkClick_handled e href (c : Ctx) :
  handled (doc c) (doc (handleLinkClick elementIds e href c).2).
Proof.
  unfold handleLinkClick. destruct (startsWith "#" href); [|apply handled_refl].
  destruct (getElementById _ _); cbn; [apply handled_scrollIntoView|apply handled_refl].
Qed.

Lemma handleEscape_handled isOpen e (c : Ctx) :
  handled (doc c) (doc (handleEscape hamburgerButton isOpen e c).2).
Proof.
  unfold handleEscape. destruct (_ && _); [|apply handled_refl].
  cbn. apply handled_focusOpt.
Qed.

Lemma handleTabKey_handled first last e (c : Ctx) :
  handled (doc c) (doc (handleTabKey first last e c).2).
Proof.
  unfold handleTabKey.
  repeat (match goal with |- context [if ?b then _ else _] => destruct b end);
    cbn; first [apply handled_refl | apply handled_focusOpt].
Qed.

Lemma dispatchKeydown_handled ls e (c : Ctx) :
  handled (doc c) (doc (dispatchKeydown hamburgerButton ls e c).2).
Proof.
  revert e c. induction ls as [|l ls IH]; intros e c; [apply handled_refl|].
  cbn [dispatchKeydown].
  destruct (call hamburgerButton l e c) as [e' c'] eqn:Hcall.
  eapply handled_trans; [|apply IH].
  replace c' with (call hamburgerButton l e c).2 by (by rewrite Hcall).
  destruct l; [apply handleEscape_handled|apply handleTabKey_handled].
Qed.

(** The two buttons of the component never touch the document. *)
Lemma desktopCta_doc e pg :
  doc (Button.world (Button.handleClick (desktopCta ctaButton) e pg).1)
  = doc (Button.world pg).
Proof.
  unfold Button.handleClick, desktopCta, mbind, Eff_bind, Button.track,
    Button.forward, Button.onDataLayer, Button.onWorld, onHost. cbn.
  destruct pg as [[[es|es]|] w]; cbn;
    destruct (cta_onClick ctaButton) as [f|]; cbn; try done;
    destruct (negb _); cbn; try done;
    destruct (f (host w)) as [h []]; done.
Qed.

Lemma menuCta_doc e pg :
  doc (Button.world (Button.handleClick (menuCta ctaButton) e pg).1)
  = doc (Button.world pg).
Proof.
  unfold Button.handleClick, menuCta, mbind, Eff_bind, Button.track,
    Button.forward, Button.onDataLayer, Button.onWorld, onHost, exec. cbn.
  destruct pg as [[[es|es]|] w]; cbn; try done;
    destruct (negb _); cbn; try done;
    destruct (cta_onClick ctaButton) as [f|]; cbn; try done;
    destruct (f (host w)) as [h []]; done.
Qed.

Lemma handle_handled i (s : Nav) :
  handled (document s) (doc (Button.world (handle i s).1)).
Proof.
  destruct i as [| | |href| | |k shift|el];
    cbn [Navigation.handle returned fst Button.world].
  - apply handled_refl.
  - apply handled_refl.
  - apply handled_refl.
  - pose proof (handleLinkClick_handled fresh href (enter s)) as H.
    destruct (handleLinkClick _ _ _ _) as [e c]. exact H.
  - rewrite desktopCta_doc. apply handled_refl.
  - rewrite menuCta_doc. apply handled_refl.
  - pose proof (dispatchKeydown_handled (keydownListeners (document s))
                  (keydown k shift) (enter s)) as H.
    destruct (dispatchKeydown _ _ _ _) as [e c]. exact H.
  - apply handled_moveFocus.
Qed.

(** *** The invariant *)

Local Ltac count_writes :=
  unfold locks, unlocks, occurrences; cbn [calls];
  rewrite !filter_app, !length_app; cbn;
  repeat (case_decide; try done); cbn; lia.

Lemma removeFirst_here l ls : removeFirst l (l :: ls) = ls.
Proof. cbn. by rewrite decide_True. Qed.

Lemma mount_consistent a dl (h : Host) :
  consistent menuPanel (mount menuPanel (moveFocus a blank) dl h).
Proof. by split. Qed.

Lemma commit_open (d : Document) :
  keydownListeners d = listenersWhen menuPanel false →
  let d' := (runEffects menuPanel true (runCleanups (cleanupsWhen menuPanel false) d)).1 in
  (runEffects menuPanel true (runCleanups (cleanupsWhen menuPanel false) d)).2
    = cleanupsWhen menuPanel true ∧
  keydownListeners d' = listenersWhen menuPanel true ∧
  overflow d' = "hidden" ∧
  locks d' = locks d + 1 ∧ unlocks d' = unlocks d + 1.
Proof.
  intros Hls. destruct d as [a ov ls cs]. cbn in Hls. subst ls.
  unfold runEffects, runCleanups, escapeEffect, focusTrapEffect, mobileMenuRef,
    scrollLockEffect, cleanupsWhen, listenersWhen, trap.
  cbn [negb escapeListener tabListener].
  rewrite head_lookup_0, last_lookup_length.
  unfold removeEventListener at 1. cbn [keydownListeners]. rewrite removeFirst_here.
  destruct (head menuPanel) as [f|]; cbn;
    (split; [done|]); (split; [done|]); (split; [done|]);
    count_writes.
Qed.

Lemma commit_close (d : Document) :
  keydownListeners d = listenersWhen menuPanel true →
  let d' := (runEffects menuPanel false (runCleanups (cleanupsWhen menuPanel true) d)).1 in
  (runEffects menuPanel false (runCleanups (cleanupsWhen menuPanel true) d)).2
    = cleanupsWhen menuPanel false ∧
  keydownListeners d' = listenersWhen menuPanel false ∧
  overflow d' = "" ∧
  activeElement d' = activeElement d ∧
  locks d' = locks d ∧ unlocks d' = unlocks d + 2.
Proof.
  intros Hls. destruct d as [a ov ls cs]. cbn in Hls. subst ls.
  unfold runEffects, runCleanups, escapeEffect, focusTrapEffect, mobileMenuRef,
    scrollLockEffect, cleanupsWhen, listenersWhen.
  cbn [negb escapeListener tabListener].
  unfold removeEventListener. cbn [keydownListeners].
  rewrite !removeFirst_here. cbn.
  do 4 (split; [done|]). count_writes.
Qed.

Lemma settle_consistent (s : Nav) dl (c : Ctx) :
  consistent menuPanel s →
  handled (document s) (doc c) →
  consistent menuPanel (settle s dl c).
Proof.
  intros [Hcl Hls Hov Hw] Hh.
  pose proof (handled_locks _ _ Hh) as Hlocks.
  pose proof (handled_unlocks _ _ Hh) as Hunlocks.
  destruct Hh as (Hl & Ho & _).
  unfold Navigation.settle.
  case_bool_decide as Hnext.
  - split; cbn -[Nat.mul]; [congruence..|lia].
  - rewrite Hcl. rewrite Hls in Hl.
    destruct (foldl applyUpdate (isMobileMenuOpen s) (queue c)) eqn:Hfold,
      (isMobileMenuOpen s) eqn:Hopen; try done.
    + destruct (commit_open (doc c) Hl) as (E1 & E2 & E3 & E4 & E5).
      destruct (runEffects _ _ _) as [d' cl']. cbn in *.
      split; cbn; [done|done|done|lia].
    + destruct (commit_close (doc c) Hl) as (E1 & E2 & E3 & _ & E4 & E5).
      destruct (runEffects _ _ _) as [d' cl']. cbn in *.
      split; cbn; [done|done|done|lia].
Qed.

Lemma step_consistent i (s : Nav) :
  consistent menuPanel s → consistent menuPanel (step i s).
Proof.
  intros Hs. unfold Navigation.step, Navigation.dispatch.
  pose proof (handle_handled i s) as Hh.
  destruct (handle i s) as [pg r]. cbn in *.
  by apply settle_consistent.
Qed.

Lemma reachable_consistent (s : Nav) :
  reachable s → consistent menuPanel s.
Proof.
  induction 1; [apply mount_consistent|by apply step_consistent].
Qed.

(** *** Inputs that queue nothing *)

Lemma settle_nothing (s : Nav) :
  settle s (dataLayer s) (enter s) = s.
Proof.
  unfold Navigation.settle, enter. cbn.
  rewrite bool_decide_eq_true_2 by done. by destruct s.
Qed.

Lemma settle_refocused el (s : Nav) :
  settle s (dataLayer s) (onDoc (focus el) (enter s)) = refocused el s.
Proof.
  unfold Navigation.settle, enter, onDoc. cbn.
  by rewrite bool_decide_eq_true_2 by done.
Qed.

(** *** Escape while open *)

Lemma keydown_when_open (s : Nav) k shift :
  consistent menuPanel s → isMobileMenuOpen s = true →
  dispatchKeydown hamburgerButton (keydownListeners (document s))
    (keydown k shift) (enter s)
  = let '(e, c) := handleEscape hamburgerButton true (keydown k shift) (enter s) in
    handleTabKey (head menuPanel) (last menuPanel) e c.
Proof.
  intros [_ Hls _ _] Hopen. rewrite Hls, Hopen.
  unfold listenersWhen, trap. cbn [dispatchKeydown call].
  destruct (handleEscape _ _ _ _) as [e c].
  by destruct (handleTabKey _ _ _ _).
Qed.

Lemma settle_close (s : Nav) dl (c : Ctx) :
  consistent menuPanel s → isMobileMenuOpen s = true →
  handled (document s) (doc c) →
  foldl applyUpdate (isMobileMenuOpen s) (queue c) = false →
  isMobileMenuOpen (settle s dl c) = false ∧
  activeElement (document (settle s dl c)) = activeElement (doc c).
Proof.
  intros [Hcl Hls _ _] Hopen (Hl & _) Hfold.
  unfold Navigation.settle. rewrite Hfold.
  rewrite bool_decide_eq_false_2 by (by rewrite Hopen).
  rewrite Hcl, Hopen. rewrite Hls, Hopen in Hl.
  destruct (commit_close (doc c) Hl) as (_ & _ & _ & E & _).
  by destruct (runEffects _ _ _).
Qed.

Lemma handle_escape_open (s : Nav) shift :
  consistent menuPanel s → isMobileMenuOpen s = true →
  handle (Keydown "Escape" shift) s
  = returned (onDoc (focusOpt hamburgerButton) (closeMobileMenu (enter s)))
      (dataLayer s) fresh.
Proof.
  intros Hs Hopen. unfold Navigation.handle.
  by rewrite keydown_when_open.
Qed.

Lemma escape_when_open (s : Nav) shift :
  reachable s → isMobileMenuOpen s = true →
  let s' := (dispatch (Keydown "Escape" shift) s).1 in
  (dispatch (Keydown "Escape" shift) s).2 = Normal fresh ∧
  isMobileMenuOpen s' = false ∧
  activeElement (document s')
    = match hamburgerButton with
      | Some trigger => Some trigger
      | None => activeElement (document s)
      end ∧
  overflow (document s') = "" ∧
  keydownListeners (document s') = [HandleEscape false].
Proof.
  intros Hs%reachable_consistent Hopen.
  unfold Navigation.dispatch. rewrite handle_escape_open by done.
  cbn [returned Button.dataLayer Button.world fst snd].
  set (c := onDoc _ _).
  assert (handled (document s) (doc c)) as Hh by apply handled_focusOpt.
  destruct (settle_close s (dataLayer s) c) as [Hclosed Hactive];
    [done|done|done|by rewrite Hopen|].
  destruct (settle_consistent s (dataLayer s) c Hs Hh) as [_ Hls Hov _].
  rewrite Hclosed in Hls, Hov.
  repeat split; [done| |done|done].
  rewrite Hactive. subst c. cbn. by destruct hamburgerButton.
Qed.

(** *** What React makes of the queue *)

Lemma settle_isOpen (s : Nav) dl (c : Ctx) :
  isMobileMenuOpen (settle s dl c)
  = foldl applyUpdate (isMobileMenuOpen s) (queue c).
Proof.
  unfold Navigation.settle. case_bool_decide as Hnext; [by cbn|].
  by destruct (runEffects _ _ _).
Qed.

Lemma handleLinkClick_anchor e href (c : Ctx) :
  startsWith "#" href = true →
  handleLinkClick elementIds e href c
  = (preventDefault e,
     closeMobileMenu
       (match getElementById elementIds (substring 1 href) with
        | Some el => onDoc (scrollIntoView el) c
        | None => c
        end)).
Proof. intros H. unfold handleLinkClick. by rewrite H. Qed.

Lemma step_backdrop_closes (s : Nav) :
  isMobileMenuOpen (step ClickBackdrop s) = false.
Proof.
  unfold Navigation.step, Navigation.dispatch. cbn. by rewrite settle_isOpen.
Qed.

Lemma step_anchor_closes href (s : Nav) :
  startsWith "#" href = true →
  isMobileMenuOpen (step (ClickLink href) s) = false.
Proof.
  intros H. unfold Navigation.step, Navigation.dispatch, Navigation.handle.
  rewrite handleLinkClick_anchor by done. cbn. rewrite settle_isOpen.
  by destruct (getElementById _ _).
Qed.

(** C1 (as amended). While the menu is open, each dismissal the code
    implements closes it: the Escape key, a click on the backdrop, and the
    activation of a link whose destination starts with '#'. The Escape
    path moves the focus to the hamburger button when its ref is set, and
    leaves the focus where it was when it is not. *)
Theorem dismissal_closes (s : Nav) :
  reachable s → isMobileMenuOpen s = true →
  (∀ shift,
     isMobileMenuOpen (step (Keydown "Escape" shift) s) = false ∧
     activeElement (document (step (Keydown "Escape" shift) s))
     = match hamburgerButton with
       | Some trigger => Some trigger
       | None => activeElement (document s)
       end) ∧
  isMobileMenuOpen (step ClickBackdrop s) = false ∧
  (∀ href, startsWith "#" href = true →
           isMobileMenuOpen (step (ClickLink href) s) = false).
Proof.
  intros Hs Hopen. split; [|split].
  - intros shift.
    destruct (escape_when_open s shift Hs Hopen) as (_ & H1 & H2 & _).
    by split.
  - apply step_backdrop_closes.
  - intros href H. by apply step_anchor_closes.
Qed.

(** C2 (as amended). Activating a link whose destination does not start
    with '#' is left to the browser: the handler neither prevents the
    default navigation nor closes the menu, and the component's state,
    [isMobileMenuOpen] included, is what it was. *)
Theorem page_link_passes_through (s : Nav) href :
  startsWith "#" href = false →
  dispatch (ClickLink href) s = (s, Normal fresh).
Proof.
  intros H. unfold Navigation.dispatch, Navigation.handle, handleLinkClick.
  rewrite H. cbn. by rewrite settle_nothing.
Qed.

(** C3 (as amended). In every reachable state the [keydown] listeners on
    the document are exactly these: one Escape listener, attached whether
    the menu is open or closed and holding the current state, followed,
    if and only if the menu is open, by the focus-trap listener. Nothing
    accumulates over open/close cycles. *)
Theorem keydown_listeners_by_state (s : Nav) :
  reachable s →
  keydownListeners (document s)
  = HandleEscape (isMobileMenuOpen s)
    :: (if isMobileMenuOpen s
        then [HandleTabKey (head menuPanel) (last menuPanel)]
        else []) ∧
  (HandleTabKey (head menuPanel) (last menuPanel) ∈ keydownListeners (document s)
   ↔ isMobileMenuOpen s = true).
Proof.
  intros [_ Hls _ _]%reachable_consistent. split; [exact Hls|].
  rewrite Hls. unfold listenersWhen, trap.
  destruct (isMobileMenuOpen s); split; intros H; try done.
  - set_solver.
  - apply list_elem_of_singleton in H. discriminate.
Qed.

(** C5 (as amended). In every reachable state with the menu open, a
    keydown with key 'Escape' closes the menu, releases the scroll lock
    and moves the focus to the hamburger button if its ref is set (the
    focus stays where it was if not). The event is neither stopped nor
    default-prevented: it completes with its flags untouched. *)
Theorem escape_closes (s : Nav) shift :
  reachable s → isMobileMenuOpen s = true →
  (dispatch (Keydown "Escape" shift) s).2 = Normal fresh ∧
  isMobileMenuOpen (step (Keydown "Escape" shift) s) = false ∧
  overflow (document (step (Keydown "Escape" shift) s)) = "" ∧
  activeElement (document (step (Keydown "Escape" shift) s))
  = match hamburgerButton with
    | Some trigger => Some trigger
    | None => activeElement (document s)
    end.
Proof.
  intros Hs Hopen.
  destruct (escape_when_open s shift Hs Hopen) as (H0 & H1 & H2 & H3 & _).
  by repeat split.
Qed.

(** C6 (as amended). In every reachable state the page scroll is locked
    exactly when the menu is open: the body's overflow is 'hidden' when
    [isMobileMenuOpen] and '' when not. The writes are not paired one to
    one: whenever the menu is closed, the writes of '' number one more
    than three times the writes of 'hidden'. *)
Theorem scroll_lock_by_state (s : Nav) :
  reachable s →
  overflow (document s) = (if isMobileMenuOpen s then "hidden" else "") ∧
  (isMobileMenuOpen s = false →
   unlocks (document s) = 3 * locks (document s) + 1).
Proof.
  intros [_ _ Hov Hw]%reachable_consistent. split; [exact Hov|].
  intros Hclosed. rewrite Hclosed in Hw. lia.
Qed.

(** *** Closing and toggling *)

Lemma close_when_closed (s : Nav) :
  isMobileMenuOpen s = false →
  dispatch ClickCloseButton s = (s, Normal fresh).
Proof.
  intros Hclosed. unfold Navigation.dispatch. cbn.
  unfold Navigation.settle. cbn. rewrite Hclosed. cbn.
  destruct s; cbn in *; by subst.
Qed.

Lemma step_close_closes (s : Nav) :
  isMobileMenuOpen (step ClickCloseButton s) = false.
Proof.
  unfold Navigation.step, Navigation.dispatch. cbn. by rewrite settle_isOpen.
Qed.

Lemma step_toggle_negates (s : Nav) :
  isMobileMenuOpen (step ClickHamburger s) = negb (isMobileMenuOpen s).
Proof.
  unfold Navigation.step, Navigation.dispatch. cbn. by rewrite settle_isOpen.
Qed.

(** C7 (as amended). [closeMobileMenu] is idempotent: on a closed menu it
    changes nothing at all (no state change, no write to the document),
    and closing twice is closing once. The component has no operation
    that only opens: the hamburger button toggles, so a second activation
    undoes the first, and the state and the scroll lock are back where
    they were. *)
Theorem close_idempotent_toggle_involutive (s : Nav) :
  reachable s →
  (isMobileMenuOpen s = false → step ClickCloseButton s = s) ∧
  step ClickCloseButton (step ClickCloseButton s) = step ClickCloseButton s ∧
  isMobileMenuOpen (step ClickHamburger s) = negb (isMobileMenuOpen s) ∧
  isMobileMenuOpen (step ClickHamburger (step ClickHamburger s))
  = isMobileMenuOpen s ∧
  overflow (document (step ClickHamburger (step ClickHamburger s)))
  = overflow (document s).
Proof.
  intros Hs.
  assert (∀ s, isMobileMenuOpen s = false → step ClickCloseButton s = s) as Hnoop.
  { intros s0 H. unfold Navigation.step. by rewrite close_when_closed. }
  assert (isMobileMenuOpen (step ClickHamburger (step ClickHamburger s))
          = isMobileMenuOpen s) as Htwice.
  { rewrite !step_toggle_negates. apply negb_involutive. }
  repeat split.
  - apply Hnoop.
  - apply Hnoop, step_close_closes.
  - apply step_toggle_negates.
  - exact Htwice.
  - pose proof (reachable_step _ _ _ _ ClickHamburger _
                  (reachable_step _ _ _ _ ClickHamburger _ Hs)) as Hs2.
    apply reachable_consistent in Hs as [_ _ Hov _].
    apply reachable_consistent in Hs2 as [_ _ Hov2 _].
    by rewrite Hov, Hov2, Htwice.
Qed.

(** *** Anchor links *)

Lemma scrolled_app (d : Document) extra :
  scrolled {| activeElement := activeElement d; overflow := overflow d;
              keydownListeners := keydownListeners d;
              calls := calls d ++ extra |}
  = scrolled d
    ++ omap (λ c, match c with ScrollIntoView el => Some el | _ => None end) extra.
Proof. unfold scrolled. cbn. by rewrite omap_app. Qed.

Lemma settle_scrolled (s : Nav) dl (c : Ctx) :
  scrolled (document (settle s dl c)) = scrolled (doc c).
Proof.
  unfold Navigation.settle. case_bool_decide as Hnext; [done|].
  unfold runEffects, runCleanups, escapeEffect, focusTrapEffect, mobileMenuRef,
    scrollLockEffect.
  destruct (foldl _ _ _), (tabListener (cleanups s)), (menuPanel !! 0);
    unfold scrolled; cbn; rewrite ?omap_app; cbn; by rewrite ?app_nil_r.
Qed.

(** C8. Activating a link whose destination starts with '#' completes
    without an exception, prevents the default navigation and leaves the
    menu closed; when [document.getElementById] finds the element named
    after the '#', that element and no other is scrolled into view, and
    when it finds none, nothing is scrolled. *)
Theorem anchor_link_scrolls_and_closes (s : Nav) href :
  startsWith "#" href = true →
  (dispatch (ClickLink href) s).2 = Normal (preventDefault fresh) ∧
  isMobileMenuOpen (step (ClickLink href) s) = false ∧
  scrolled (document (step (ClickLink href) s))
  = scrolled (document s)
    ++ match getElementById elementIds (substring 1 href) with
       | Some targetElement => [targetElement]
       | None => []
       end.
Proof.
  intros H. split; [|split].
  - unfold Navigation.dispatch, Navigation.handle.
    by rewrite handleLinkClick_anchor.
  - by apply step_anchor_closes.
  - unfold Navigation.step, Navigation.dispatch, Navigation.handle.
    rewrite handleLinkClick_anchor by done. cbn. rewrite settle_scrolled.
    destruct (getElementById _ _) as [el|]; cbn.
    + apply (scrolled_app (document s) [ScrollIntoView el]).
    + by rewrite app_nil_r.
Qed.

(** *** The focus trap *)

Lemma handle_tab_open (s : Nav) shift :
  consistent menuPanel s → isMobileMenuOpen s = true →
  handle (Keydown "Tab" shift) s
  = let '(e, c) :=
      handleTabKey (head menuPanel) (last menuPanel) (keydown "Tab" shift) (enter s) in
    returned c (dataLayer s) (flags e).
Proof.
  intros Hs Hopen. unfold Navigation.handle.
  by rewrite keydown_when_open.
Qed.

Lemma isActive_true (d : Document) el :
  activeElement d = Some el → isActive d (Some el) = true.
Proof. intros H. unfold isActive. rewrite H. by apply bool_decide_eq_true_2. Qed.

Lemma isActive_false (d : Document) el :
  activeElement d ≠ Some el → isActive d (Some el) = false.
Proof.
  intros H. unfold isActive. destruct (activeElement d) as [a|]; [|done].
  apply bool_decide_eq_false_2. congruence.
Qed.

(** C4. With the menu open and a non-empty set of focusable elements in
    the panel, whose first is [firstElement] and last [lastElement]: Tab
    without Shift on the last element prevents the default action and
    focuses the first; Tab with Shift on the first prevents the default
    action and focuses the last; any other Tab press is not prevented and
    changes nothing, the focus included. *)
Theorem tab_trap (s : Nav) firstElement lastElement :
  reachable s → isMobileMenuOpen s = true →
  head menuPanel = Some firstElement →
  last menuPanel = Some lastElement →
  (activeElement (document s) = Some lastElement →
   dispatch (Keydown "Tab" false) s
   = (refocused firstElement s, Normal (preventDefault fresh))) ∧
  (activeElement (document s) = Some firstElement →
   dispatch (Keydown "Tab" true) s
   = (refocused lastElement s, Normal (preventDefault fresh))) ∧
  (∀ shift : bool,
     activeElement (document s) ≠ Some (if shift then firstElement else lastElement) →
     dispatch (Keydown "Tab" shift) s = (s, Normal fresh)).
Proof.
  intros Hs%reachable_consistent Hopen Hfirst Hlast.
  repeat split.
  - intros Hactive. unfold Navigation.dispatch.
    rewrite handle_tab_open, Hfirst, Hlast by done.
    unfold handleTabKey. cbn. rewrite isActive_true by done.
    cbn. f_equal. apply (settle_refocused firstElement s).
  - intros Hactive. unfold Navigation.dispatch.
    rewrite handle_tab_open, Hfirst, Hlast by done.
    unfold handleTabKey. cbn. rewrite isActive_true by done.
    cbn. f_equal. apply (settle_refocused lastElement s).
  - intros shift Hactive. unfold Navigation.dispatch.
    rewrite handle_tab_open, Hfirst, Hlast by done.
    unfold handleTabKey. cbn.
    destruct shift; rewrite isActive_false by done; cbn;
      by rewrite settle_nothing.
Qed.

End NavigationFacts.

Section ButtonFacts.
Import Js Button Observe.

Context {W : Type}.
Implicit Types (p : Props W) (pg : Page W) (e : Dom.Flags).

Lemma forward_with_href p e pg :
  truthy (href p) = true → forward p e pg = (pg, Normal e).
Proof.
  intros H. unfold forward. rewrite H. by destruct (onClick p).
Qed.

Lemma track_world p pg : world (track p pg).1 = world pg.
Proof.
  unfold track. destruct (truthy _); [|done].
  destruct (dataLayer pg) as [[es|es]|]; done.
Qed.

(** With an [href] the handler is the one of the button without
    [onClick], and the caller's state is not touched. *)
Lemma handleClick_with_href p e pg :
  truthy (href p) = true →
  handleClick p e pg = handleClick (withoutOnClick p) e pg ∧
  world (handleClick p e pg).1 = world pg ∧
  (∀ e', (handleClick p e pg).2 = Normal e' → e' = e).
Proof.
  intros H. unfold handleClick.
  change (disabled (withoutOnClick p)) with (disabled p).
  destruct (disabled p).
  { cbn. repeat split. by intros e' [= ->]. }
  unfold mbind, Eff_bind.
  change (track (withoutOnClick p)) with (track p).
  pose proof (track_world p pg) as Hw.
  destruct (track p pg) as [pg' [[]|m]]; cbn in *.
  - rewrite forward_with_href by done. cbn. repeat split; [done|].
    by intros e' [= ->].
  - repeat split; [done|]. intros e' He'. discriminate He'.
Qed.

(** Without [window.dataLayer] nothing is pushed and the handler goes on
    to the caller's [onClick]. *)
Lemma handleClick_sink_absent p e w :
  disabled p = false →
  handleClick p e {| dataLayer := None; world := w |}
  = forward p e {| dataLayer := None; world := w |}.
Proof.
  intros H. unfold handleClick, mbind, Eff_bind, track. rewrite H. cbn.
  by destruct (truthy (analyticsId p)).
Qed.

(** A [push] that throws ends the handler there: the exception escapes
    and [onClick] is not reached. *)
Lemma handleClick_sink_throws p e es w :
  disabled p = false → truthy (analyticsId p) = true →
  handleClick p e {| dataLayer := Some (NonExtensible es); world := w |}
  = ({| dataLayer := Some (NonExtensible es); world := w |},
     Throw "TypeError: Cannot add property, object is not extensible").
Proof.
  intros H1 H2. unfold handleClick, mbind, Eff_bind, track. by rewrite H1, H2.
Qed.

End ButtonFacts.

Section CallToAction.
Import Js Dom Navigation Observe.

Context {Host : Type} (ctaButton : CTAButton Host)
        (menuPanel : list Element)
        (hamburgerButton : option Element)
        (elementIds : gmap string Element).

Local Abbreviation step := (Navigation.step ctaButton menuPanel hamburgerButton elementIds).

(** The menu's call-to-action has an [href] whenever [ctaButton.href] is
    not empty; its [onClick], which would close the menu, is then dead. *)
Lemma menuCta_with_href (s : @Nav Host) :
  cta_href ctaButton ≠ "" →
  isMobileMenuOpen (step ClickMenuCta s) = isMobileMenuOpen s ∧
  page (step ClickMenuCta s) = page s.
Proof.
  intros Hhref.
  assert (truthy (Button.href (menuCta ctaButton)) = true) as Htruthy.
  { cbn. apply negb_true_iff, String.eqb_neq, Hhref. }
  unfold Navigation.step, Navigation.dispatch. cbn [Navigation.handle].
  destruct (handleClick_with_href (menuCta ctaButton) fresh
              {| Button.dataLayer := dataLayer s; Button.world := enter s |}
              Htruthy) as (_ & Hworld & _).
  destruct (Button.handleClick _ _ _) as [pg r]. cbn [fst] in *.
  rewrite settle_isOpen, Hworld. split; [done|].
  unfold Navigation.settle. cbn.
  by rewrite bool_decide_eq_true_2.
Qed.

End CallToAction.

(** ** The component on the sample page *)

Section OnTheSamplePage.
Import Js Dom Navigation Observe.

Lemma closed_reachable : Sample.reachable Sample.closed.
Proof. apply reachable_mount. Qed.

Lemma opened_reachable : Sample.reachable Sample.opened.
Proof. apply reachable_step, reachable_mount. Qed.

(** C1, counterexample. With the menu open and the hamburger button in
    the document, activating the link to "/about" leaves the menu open,
    and a click on the backdrop closes it with the focus still on the
    panel's close button. *)
Lemma dismissals_that_miss :
  isMobileMenuOpen Sample.opened = true ∧
  isMobileMenuOpen (Sample.step (ClickLink "/about") Sample.opened) = true ∧
  isMobileMenuOpen (Sample.step ClickBackdrop Sample.opened) = false ∧
  activeElement (document (Sample.step ClickBackdrop Sample.opened))
  = Some CloseButton.
Proof. by vm_compute. Qed.

Lemma dismissal_closes_witness :
  Sample.reachable Sample.opened ∧
  isMobileMenuOpen Sample.opened = true ∧
  isMobileMenuOpen (Sample.step (Keydown "Escape" false) Sample.opened) = false ∧
  activeElement (document (Sample.step (Keydown "Escape" false) Sample.opened))
  = Some HamburgerButton ∧
  isMobileMenuOpen (Sample.step ClickBackdrop Sample.opened) = false.
Proof.
  split; [apply opened_reachable|]. split; [reflexivity|].
  destruct (dismissal_closes Sample.ctaButton Sample.menuPanel
              (Some HamburgerButton) Sample.elementIds Sample.opened
              opened_reachable eq_refl) as (Hescape & Hbackdrop & _).
  destruct (Hescape false) as [Hclosed Hfocus].
  split; [exact Hclosed|]. split; [exact Hfocus|exact Hbackdrop].
Defined.

(** C2, counterexample. "/about" does not start with '#'; activating
    that link in the open menu leaves [isMobileMenuOpen] true. *)
Lemma page_link_leaves_menu_open :
  startsWith "#" "/about" = false ∧
  isMobileMenuOpen Sample.opened = true ∧
  isMobileMenuOpen (Sample.step (ClickLink "/about") Sample.opened) ≠ false.
Proof. by vm_compute. Qed.

Lemma page_link_passes_through_witness :
  startsWith "#" "/about" = false ∧
  Sample.dispatch (ClickLink "/about") Sample.opened
  = (Sample.opened, Normal fresh).
Proof.
  split; [reflexivity|].
  apply (page_link_passes_through Sample.ctaButton Sample.menuPanel
           (Some HamburgerButton) Sample.elementIds Sample.opened "/about").
  reflexivity.
Defined.

(** C3, counterexample. Right after mount the menu is closed and the
    document has a [keydown] listener of the component. *)
Lemma listener_attached_while_closed :
  Sample.reachable Sample.closed ∧
  isMobileMenuOpen Sample.closed = false ∧
  keydownListeners (document Sample.closed) = [HandleEscape false].
Proof. split; [apply closed_reachable|by vm_compute]. Qed.

Lemma keydown_listeners_by_state_witness :
  Sample.reachable Sample.opened ∧
  keydownListeners (document Sample.opened)
  = [HandleEscape true; HandleTabKey (Some CloseButton) (Some MenuCta)].
Proof.
  split; [apply opened_reachable|].
  apply (keydown_listeners_by_state Sample.ctaButton Sample.menuPanel
           (Some HamburgerButton) Sample.elementIds Sample.opened).
  apply opened_reachable.
Defined.

Lemma tab_trap_witness :
  Sample.reachable Sample.opened ∧
  isMobileMenuOpen Sample.opened = true ∧
  head Sample.menuPanel = Some CloseButton ∧
  last Sample.menuPanel = Some MenuCta ∧
  activeElement (document Sample.opened) = Some CloseButton ∧
  Sample.dispatch (Keydown "Tab" true) Sample.opened
  = (refocused MenuCta Sample.opened, Normal (preventDefault fresh)).
Proof.
  split; [apply opened_reachable|]. do 4 (split; [reflexivity|]).
  apply (tab_trap Sample.ctaButton Sample.menuPanel (Some HamburgerButton)
           Sample.elementIds Sample.opened CloseButton MenuCta
           opened_reachable eq_refl eq_refl eq_refl).
  reflexivity.
Defined.

(** C5, counterexample. Escape on the open menu returns with the event's
    propagation not stopped. *)
Lemma escape_does_not_stop_propagation :
  isMobileMenuOpen Sample.opened = true ∧
  (Sample.dispatch (Keydown "Escape" false) Sample.opened).2
  = Normal {| defaultPrevented := false; propagationStopped := false |}.
Proof. by vm_compute. Qed.

Lemma escape_closes_witness :
  Sample.reachable Sample.opened ∧
  isMobileMenuOpen Sample.opened = true ∧
  (Sample.dispatch (Keydown "Escape" true) Sample.opened).2 = Normal fresh ∧
  isMobileMenuOpen (Sample.step (Keydown "Escape" true) Sample.opened) = false.
Proof.
  split; [apply opened_reachable|]. split; [reflexivity|].
  destruct (escape_closes Sample.ctaButton Sample.menuPanel
              (Some HamburgerButton) Sample.elementIds Sample.opened true
              opened_reachable eq_refl) as (Hflags & Hclosed & _).
  split; [exact Hflags|exact Hclosed].
Defined.

(** C6, counterexample. Right after mount the menu is closed, '' has
    been written once and 'hidden' never; after one open/close cycle it
    is four writes of '' to one of 'hidden'. *)
Lemma writes_not_paired :
  Sample.reachable Sample.closed ∧
  isMobileMenuOpen Sample.closed = false ∧
  locks (document Sample.closed) = 0 ∧
  unlocks (document Sample.closed) = 1 ∧
  isMobileMenuOpen (Sample.step ClickCloseButton Sample.opened) = false ∧
  locks (document (Sample.step ClickCloseButton Sample.opened)) = 1 ∧
  unlocks (document (Sample.step ClickCloseButton Sample.opened)) = 4.
Proof. split; [apply closed_reachable|by vm_compute]. Qed.

Lemma scroll_lock_by_state_witness :
  Sample.reachable Sample.opened ∧
  overflow (document Sample.opened) = "hidden".
Proof.
  split; [apply opened_reachable|].
  apply (scroll_lock_by_state Sample.ctaButton Sample.menuPanel
           (Some HamburgerButton) Sample.elementIds Sample.opened).
  apply opened_reachable.
Defined.

(** C7, counterexample. The only operation that opens the menu, the
    hamburger button's, used twice in a row leaves the menu closed,
    where once leaves it open. *)
Lemma hamburger_twice_is_not_once :
  isMobileMenuOpen (Sample.step ClickHamburger Sample.closed) = true ∧
  isMobileMenuOpen
    (Sample.step ClickHamburger (Sample.step ClickHamburger Sample.closed))
  = false.
Proof. by vm_compute. Qed.

Lemma close_idempotent_toggle_involutive_witness :
  Sample.reachable Sample.closed ∧
  isMobileMenuOpen Sample.closed = false ∧
  Sample.step ClickCloseButton Sample.closed = Sample.closed.
Proof.
  split; [apply closed_reachable|]. split; [reflexivity|].
  destruct (close_idempotent_toggle_involutive Sample.ctaButton
              Sample.menuPanel (Some HamburgerButton) Sample.elementIds
              Sample.closed closed_reachable) as (Hnoop & _).
  exact (Hnoop eq_refl).
Defined.

Lemma anchor_link_scrolls_and_closes_witness :
  startsWith "#" "#contact" = true ∧
  isMobileMenuOpen (Sample.step (ClickLink "#contact") Sample.opened) = false ∧
  scrolled (document (Sample.step (ClickLink "#contact") Sample.opened))
  = [PageElement 2].
Proof.
  split; [reflexivity|].
  destruct (anchor_link_scrolls_and_closes Sample.ctaButton Sample.menuPanel
              (Some HamburgerButton) Sample.elementIds Sample.opened
              "#contact" eq_refl) as (_ & Hclosed & Hscrolled).
  split; [exact Hclosed|exact Hscrolled].
Defined.

End OnTheSamplePage.

(** ** The button and the analytics sink *)

Section ButtonOnTheSamplePage.
Import Js Dom Navigation Observe.

(** C9. The code at the failing input. The tracked button of the demo
    page, clicked when [window.dataLayer] is a frozen array: the
    [TypeError] of [push] escapes [handleClick] and the button's
    [onClick] never runs (the console stays empty), whereas without a
    data layer, or with an ordinary one, it runs. In the component, with
    a call-to-action that [Button] forwards, the same exception keeps
    the menu open where the click otherwise closes it. *)
Theorem throwing_sink_escapes_handleClick :
  Button.handleClick Sample.trackedButton fresh
    {| Button.dataLayer := Some Sample.frozen; Button.world := [] |}
  = ({| Button.dataLayer := Some Sample.frozen; Button.world := [] |},
     Throw "TypeError: Cannot add property, object is not extensible") ∧
  Button.handleClick Sample.trackedButton fresh
    {| Button.dataLayer := None; Button.world := [] |}
  = ({| Button.dataLayer := None; Button.world := ["Button clicked!"] |},
     Normal fresh) ∧
  Button.world
    (Button.handleClick Sample.trackedButton fresh
       {| Button.dataLayer := Some (Button.Extensible []); Button.world := [] |}).1
  = ["Button clicked!"] ∧
  isMobileMenuOpen (Sample.stepBare ClickMenuCta (Sample.openedOn None)) = false ∧
  isMobileMenuOpen
    (Sample.stepBare ClickMenuCta (Sample.openedOn (Some Sample.frozen)))
  = true ∧
  (Sample.dispatchBare ClickMenuCta (Sample.openedOn (Some Sample.frozen))).2
  = Throw "TypeError: Cannot add property, object is not extensible".
Proof. by vm_compute. Qed.

(** C10. A button with a non-empty [href] never calls its [onClick]: its
    click handler is that of the same button without [onClick] (at most
    the analytics push), it leaves the caller's state alone and, when it
    returns, the event is as it came, so the link's navigation goes
    ahead. In particular, when [ctaButton.href] is not empty, activating
    the menu's call-to-action runs neither [ctaButton.onClick] nor
    [closeMobileMenu]: [isMobileMenuOpen] and the host page are what
    they were. *)
Theorem href_button_never_calls_onClick :
  (∀ (W : Type) (p : Button.Props W) (e : Flags) (pg : Button.Page W),
     truthy (Button.href p) = true →
     Button.handleClick p e pg = Button.handleClick (withoutOnClick p) e pg ∧
     Button.world (Button.handleClick p e pg).1 = Button.world pg ∧
     (∀ e', (Button.handleClick p e pg).2 = Normal e' → e' = e)) ∧
  (∀ (Host : Type) (ctaButton : CTAButton Host) menuPanel hamburgerButton
     elementIds (s : @Nav Host),
     cta_href ctaButton ≠ "" →
     isMobileMenuOpen
       (step ctaButton menuPanel hamburgerButton elementIds ClickMenuCta s)
     = isMobileMenuOpen s ∧
     page (step ctaButton menuPanel hamburgerButton elementIds ClickMenuCta s)
     = page s).
Proof.
  split.
  - intros W p e pg H. by apply handleClick_with_href.
  - intros Host ctaButton menuPanel hamburgerButton elementIds s H.
    by apply menuCta_with_href.
Qed.

Lemma href_button_never_calls_onClick_witness :
  truthy (Button.href Sample.trackedLink) = true ∧
  Button.world
    (Button.handleClick Sample.trackedLink fresh
       {| Button.dataLayer := Some (Button.Extensible []); Button.world := [] |}).1
  = [] ∧
  cta_href Sample.ctaButton ≠ "" ∧
  isMobileMenuOpen (Sample.step ClickMenuCta Sample.opened) = true.
Proof.
  destruct href_button_never_calls_onClick as [Hbutton Hmenu].
  split; [reflexivity|]. split.
  - apply (Hbutton (list string) Sample.trackedLink fresh
             {| Button.dataLayer := Some (Button.Extensible []);
                Button.world := [] |}).
    reflexivity.
  - assert (cta_href Sample.ctaButton ≠ "") as Hhref by (intros H; discriminate H).
    split; [exact Hhref|].
    apply (Hmenu unit Sample.ctaButton Sample.menuPanel (Some HamburgerButton)
             Sample.elementIds Sample.opened Hhref).
Defined.

End ButtonOnTheSamplePage.

(** ** More about the menu *)

Section MenuLifecycle.
Import Js Dom Navigation Observe Lifecycle.

Context {Host : Type} (ctaButton : CTAButton Host)
        (menuPanel : list Element)
        (hamburgerButton : option Element)
        (elementIds : gmap string Element).

Local Abbreviation handle := (Navigation.handle ctaButton hamburgerButton elementIds).
Local Abbreviation dispatch := (Navigation.dispatch ctaButton menuPanel hamburgerButton elementIds).
Local Abbreviation step := (Navigation.step ctaButton menuPanel hamburgerButton elementIds).
Local Abbreviation reachable := (Navigation.reachable ctaButton menuPanel hamburgerButton elementIds).
Local Abbreviation settle := (Navigation.settle menuPanel).
Local Abbreviation Ctx := (@Navigation.Ctx Host).
Local Abbreviation Nav := (@Navigation.Nav Host).

Lemma commit_open_focus (d : Document) :
  activeElement
    (runEffects menuPanel true (runCleanups (cleanupsWhen menuPanel false) d)).1
  = match head menuPanel with
    | Some firstElement => Some firstElement
    | None => activeElement d
    end.
Proof.
  unfold runEffects, runCleanups, escapeEffect, focusTrapEffect, mobileMenuRef,
    scrollLockEffect, cleanupsWhen.
  cbn [negb escapeListener tabListener]. rewrite head_lookup_0.
  by destruct (head menuPanel).
Qed.

Lemma settle_open (s : Nav) dl (c : Ctx) :
  consistent menuPanel s → isMobileMenuOpen s = false →
  foldl applyUpdate (isMobileMenuOpen s) (queue c) = true →
  activeElement (document (settle s dl c))
  = match head menuPanel with
    | Some firstElement => Some firstElement
    | None => activeElement (doc c)
    end.
Proof.
  intros [Hcl _ _ _] Hclosed Hfold.
  unfold Navigation.settle. rewrite Hfold.
  rewrite bool_decide_eq_false_2 by (by rewrite Hclosed).
  rewrite Hcl, Hclosed.
  pose proof (commit_open_focus (doc c)) as Hfocus.
  by destruct (runEffects _ _ _).
Qed.

(** X1. Opening the closed menu with the hamburger button locks the page
    scroll and puts the focus on the first focusable element of the panel;
    when the panel has none, the focus stays where it was. *)
Theorem opening_focuses_first (s : Nav) :
  reachable s → isMobileMenuOpen s = false →
  isMobileMenuOpen (step ClickHamburger s) = true ∧
  overflow (document (step ClickHamburger s)) = "hidden" ∧
  activeElement (document (step ClickHamburger s))
  = match head menuPanel with
    | Some firstElement => Some firstElement
    | None => activeElement (document s)
    end.
Proof.
  intros Hs Hclosed.
  pose proof (reachable_step _ _ _ _ ClickHamburger _ Hs) as Hs'.
  apply reachable_consistent in Hs.
  apply reachable_consistent in Hs' as [_ _ Hov _].
  assert (isMobileMenuOpen (step ClickHamburger s) = true) as Hopen.
  { rewrite step_toggle_negates. by rewrite Hclosed. }
  split; [exact Hopen|]. split; [by rewrite Hov, Hopen|].
  unfold Navigation.step, Navigation.dispatch.
  cbn [Navigation.handle returned fst Button.dataLayer Button.world].
  rewrite settle_open; [done|done|done|].
  cbn. by rewrite Hclosed.
Qed.

(** X2. A key press does something only when the menu is open and the key
    is Escape or Tab: with the menu closed, or with any other key, the
    listeners return without preventing the default and the component and
    the document are exactly what they were. *)
Theorem keydown_inert (s : Nav) k shift :
  reachable s →
  isMobileMenuOpen s = false ∨ (k ≠ "Escape" ∧ k ≠ "Tab") →
  dispatch (Keydown k shift) s = (s, Normal fresh).
Proof.
  intros Hs%reachable_consistent Hcase.
  unfold Navigation.dispatch, Navigation.handle.
  destruct (isMobileMenuOpen s) eqn:Hopen.
  - destruct Hcase as [|[Hesc Htab]]; [done|].
    rewrite (keydown_when_open menuPanel) by done.
    unfold handleEscape, handleTabKey. cbn.
    apply String.eqb_neq in Hesc, Htab. rewrite Hesc. cbn. rewrite Htab. cbn.
    by rewrite settle_nothing.
  - destruct Hs as [_ Hls _ _]. rewrite Hls, Hopen.
    cbn. unfold handleEscape. rewrite andb_false_r. cbn.
    by rewrite settle_nothing.
Qed.

(** X3. A panel without focusable elements makes the focus trap inert:
    with the menu open, no Tab press is prevented or moves the focus. *)
Theorem empty_panel_passes_tab (s : Nav) shift :
  menuPanel = [] →
  reachable s → isMobileMenuOpen s = true →
  dispatch (Keydown "Tab" shift) s = (s, Normal fresh).
Proof.
  intros Hempty Hs%reachable_consistent Hopen.
  unfold Navigation.dispatch. rewrite (handle_tab_open ctaButton menuPanel) by done.
  rewrite Hempty. unfold handleTabKey, isActive. cbn.
  destruct shift; destruct (activeElement (document s)); cbn;
    by rewrite settle_nothing.
Qed.


(** X5. The hamburger button is a toggle: after [n] activations in a row
    the menu is open exactly when [n] is odd, if it was closed before, and
    exactly when [n] is even, if it was open. *)
Theorem hamburger_parity n (s : Nav) :
  isMobileMenuOpen
    (hamburgerTimes ctaButton menuPanel hamburgerButton elementIds n s)
  = xorb (Nat.odd n) (isMobileMenuOpen s).
Proof.
  unfold hamburgerTimes. induction n as [|n IH]; [done|].
  rewrite Nat.iter_succ, step_toggle_negates, IH, Nat.odd_succ.
  rewrite <- Nat.negb_odd. by destruct (Nat.odd n), (isMobileMenuOpen s).
Qed.

End MenuLifecycle.

(** ** More about the button *)

Section ButtonTracking.
Import Js Button Observe Lifecycle.

Context {W : Type}.
Implicit Types (p : Props W) (pg : Page W) (e : Dom.Flags).

Lemma forward_dataLayer p e pg :
  dataLayer (forward p e pg).1 = dataLayer pg.
Proof.
  unfold forward. destruct (onClick p) as [f|]; [|done].
  destruct (negb _); [|done].
  unfold onWorld. by destruct (f e (world pg)).
Qed.

Lemma track_pushes p pg id es :
  analyticsId p = Some id → id ≠ "" →
  dataLayer pg = Some (Extensible es) →
  track p pg
  = ({| dataLayer :=
          Some (Extensible
                  (es ++ [ctaClickEvent id
                            (orElse (analyticsLocation p) "unknown")
                            (match children p with
                             | Text s => s
                             | Markup => id
                             end)]));
        world := world pg |}, Normal ()).
Proof.
  intros Hid Hne Hdl. unfold track, truthy. rewrite Hid.
  apply String.eqb_neq in Hne. rewrite Hne. cbn [negb].
  rewrite Hdl. unfold onDataLayer, push, ctaClick, ctaClickEvent.
  rewrite Hid. cbn. by destruct (children p).
Qed.

(** X6. A click on an enabled button that has an analytics identifier, on
    a page whose data layer is an ordinary array, appends exactly one event
    to it, after the entries that were there: a 'cta_click' labelled with
    the identifier, located at [analyticsLocation] or 'unknown', with the
    button's text or, when its children are not a string, the identifier.
    Only then does the handler go on to the caller's [onClick]. *)
Theorem click_pushes_one_event p e pg id es :
  disabled p = false →
  analyticsId p = Some id → id ≠ "" →
  dataLayer pg = Some (Extensible es) →
  let pushed :=
    {| dataLayer :=
         Some (Extensible
                 (es ++ [ctaClickEvent id
                           (orElse (analyticsLocation p) "unknown")
                           (match children p with
                            | Text s => s
                            | Markup => id
                            end)]));
       world := world pg |} in
  handleClick p e pg = forward p e pushed ∧
  dataLayer (handleClick p e pg).1 = dataLayer pushed.
Proof.
  intros Hen Hid Hne Hdl pushed.
  assert (handleClick p e pg = forward p e pushed) as Heq.
  { unfold handleClick, mbind, Eff_bind. rewrite Hen.
    by rewrite (track_pushes p pg id es). }
  split; [exact Heq|]. rewrite Heq. apply forward_dataLayer.
Qed.


End ButtonTracking.

(** ** What the menu never does *)

Section MenuDiscipline.
Import Js Dom Navigation Observe Lifecycle.

Context {Host : Type} (ctaButton : CTAButton Host)
        (menuPanel : list Element)
        (hamburgerButton : option Element)
        (elementIds : gmap string Element).

Local Abbreviation handle := (Navigation.handle ctaButton hamburgerButton elementIds).
Local Abbreviation dispatch := (Navigation.dispatch ctaButton menuPanel hamburgerButton elementIds).
Local Abbreviation step := (Navigation.step ctaButton menuPanel hamburgerButton elementIds).
Local Abbreviation reachable := (Navigation.reachable ctaButton menuPanel hamburgerButton elementIds).
Local Abbreviation settle := (Navigation.settle menuPanel).
Local Abbreviation permitted := (Lifecycle.permitted menuPanel hamburgerButton elementIds).
Local Abbreviation Ctx := (@Navigation.Ctx Host).
Local Abbreviation Nav := (@Navigation.Nav Host).

(** *** The queue only ever closes, the hamburger button apart *)


Lemma dispatchKeydown_closing ls e (c : Ctx) :
  closing (queue c) →
  closing (queue (dispatchKeydown hamburgerButton ls e c).2) ∧
  host (dispatchKeydown hamburgerButton ls e c).2 = host c.
Proof.
  revert e c. induction ls as [|l ls IH]; intros e c Hc; [done|].
  cbn [dispatchKeydown].
  destruct (call hamburgerButton l e c) as [e' c'] eqn:Hcall.
  assert (closing (queue c') ∧ host c' = host c) as [Hc' Hh'].
  { destruct l as [isOpen|f lst]; cbn in Hcall.
    - unfold handleEscape in Hcall. destruct (_ && _); injection Hcall as <- <-.
      + cbn. split; [|done]. apply Forall_app. split; [done|by constructor].
      + done.
    - unfold handleTabKey in Hcall.
      repeat (match type of Hcall with
              | context [if ?b then _ else _] => destruct b
              end); by injection Hcall as <- <-. }
  destruct (IH e' c' Hc') as [H1 H2]. split; [done|congruence].
Qed.



(** *** Analytics and the host page *)

Lemma settle_dataLayer (s : Nav) dl (c : Ctx) : dataLayer (settle s dl c) = dl.
Proof.
  unfold Navigation.settle. case_bool_decide; [done|].
  by destruct (runEffects _ _ _).
Qed.

Lemma settle_page (s : Nav) dl (c : Ctx) : page (settle s dl c) = host c.
Proof.
  unfold Navigation.settle. case_bool_decide; [done|].
  by destruct (runEffects _ _ _).
Qed.

(** X9. Only the two call-to-action buttons reach the analytics data layer
    and the host page: every other input leaves [window.dataLayer] and the
    state [ctaButton.onClick] acts on exactly as they were. *)
Theorem only_cta_reaches_analytics i (s : Nav) :
  isCta i = false →
  dataLayer (step i s) = dataLayer s ∧ page (step i s) = page s.
Proof.
  intros Hi. unfold Navigation.step, Navigation.dispatch.
  assert (Button.dataLayer (handle i s).1 = dataLayer s ∧
          host (Button.world (handle i s).1) = page s) as [Hdl Hhost].
  { destruct i as [| | |href| | |k shift|el]; try done;
      cbn [Navigation.handle returned fst Button.world Button.dataLayer].
    - unfold handleLinkClick. destruct (startsWith "#" href); [|done].
      by destruct (getElementById _ _).
    - pose proof (dispatchKeydown_closing (keydownListeners (document s))
                    (keydown k shift) (enter s)) as H.
      destruct (dispatchKeydown _ _ _ _) as [e c]. split; [done|].
      apply H. by constructor. }
  destruct (handle i s) as [pg r]. cbn in *.
  by rewrite settle_dataLayer, settle_page.
Qed.

(** *** The calls on the document *)

Lemma permitted_app (d : Document) extra :
  Forall permitted (calls d) → Forall permitted extra →
  Forall permitted (calls d ++ extra).
Proof. intros. by apply Forall_app. Qed.

Lemma handle_permitted i (s : Nav) :
  consistent menuPanel s →
  Forall permitted (calls (document s)) →
  Forall permitted (calls (doc (Button.world (handle i s).1))).
Proof.
  intros Hs Hlog. destruct i as [| | |href| | |k shift|el];
    cbn [Navigation.handle returned fst Button.world]; try done.
  - unfold handleLinkClick. destruct (startsWith "#" href); [|done].
    destruct (getElementById _ _) as [target|] eqn:Hid; cbn; [|done].
    apply permitted_app; [done|]. constructor; [|done].
    by exists (substring 1 href).
  - by rewrite desktopCta_doc.
  - by rewrite menuCta_doc.
  - destruct (isMobileMenuOpen s) eqn:Hopen.
    + rewrite (keydown_when_open menuPanel) by done.
      unfold handleEscape, handleTabKey. cbn.
      assert (∀ d : Document, Forall permitted (calls d) →
                Forall permitted (calls (focusOpt hamburgerButton d))) as Hham.
      { intros d Hd. destruct hamburgerButton as [t|] eqn:Ht; [|done].
        cbn. apply Forall_app. split; [done|]. constructor; [by left|done]. }
      assert (∀ d : Document, Forall permitted (calls d) →
                Forall permitted (calls (focusOpt (head menuPanel) d))) as Hfirst.
      { intros d Hd. destruct (head menuPanel) as [t|] eqn:Ht; [|done].
        cbn. apply Forall_app. split; [done|].
        constructor; [by right; left|done]. }
      assert (∀ d : Document, Forall permitted (calls d) →
                Forall permitted (calls (focusOpt (last menuPanel) d))) as Hlast.
      { intros d Hd. destruct (last menuPanel) as [t|] eqn:Ht; [|done].
        cbn. apply Forall_app. split; [done|].
        constructor; [by right; right|done]. }
      repeat (match goal with
              | |- context [if ?b then _ else _] => destruct b
              end); cbn; auto.
    + destruct Hs as [_ Hls _ _]. rewrite Hls, Hopen. cbn.
      unfold handleEscape. by rewrite andb_false_r.
Qed.

Lemma settle_permitted (s : Nav) dl (c : Ctx) :
  consistent menuPanel s →
  Forall permitted (calls (doc c)) →
  Forall permitted (calls (document (settle s dl c))).
Proof.
  intros [Hcl _ _ _] Hlog. unfold Navigation.settle.
  case_bool_decide as Hnext; [done|]. rewrite Hcl.
  unfold runEffects, runCleanups, escapeEffect, focusTrapEffect, mobileMenuRef,
    scrollLockEffect, cleanupsWhen.
  destruct (foldl _ _ _), (isMobileMenuOpen s); cbn;
    try (rewrite head_lookup_0; destruct (head menuPanel) as [t|] eqn:Ht; cbn);
    rewrite ?Forall_app; repeat split; try done;
    apply Forall_singleton; cbn; try done; by right; left.
Qed.

Lemma reachable_permitted (s : Nav) :
  reachable s → Forall permitted (calls (document s)).
Proof.
  induction 1 as [a dl h|i s Hs IH].
  - by repeat constructor.
  - pose proof (reachable_consistent _ _ _ _ _ Hs) as Hc.
    pose proof (handle_permitted i s Hc IH) as Hh.
    unfold Navigation.step, Navigation.dispatch.
    destruct (handle i s) as [pg r]. cbn in *.
    by apply settle_permitted.
Qed.

(** X10. The component only ever calls [focus()] on three elements: the
    hamburger button and the first and the last focusable element of the
    panel. No sequence of inputs makes it focus anything else. *)
Theorem focus_only_on_trigger_and_panel_ends (s : Nav) el :
  reachable s → el ∈ focusCalls (document s) →
  hamburgerButton = Some el ∨ head menuPanel = Some el ∨ last menuPanel = Some el.
Proof.
  intros Hs%reachable_permitted Hel. unfold focusCalls in Hel.
  apply list_elem_of_omap in Hel as (c & Hc & Hfocus).
  rewrite Forall_forall in Hs. specialize (Hs c Hc).
  destruct c; try discriminate. injection Hfocus as ->. exact Hs.
Qed.

(** X11. Every element the component scrolls into view is one that
    [document.getElementById] returns for some identifier: a link never
    scrolls to an element that is not in the document. *)
Theorem scroll_only_to_found_elements (s : Nav) el :
  reachable s → el ∈ scrolled (document s) →
  ∃ id, getElementById elementIds id = Some el.
Proof.
  intros Hs%reachable_permitted Hel. unfold scrolled in Hel.
  apply list_elem_of_omap in Hel as (c & Hc & Hscroll).
  rewrite Forall_forall in Hs. specialize (Hs c Hc).
  destruct c; try discriminate. injection Hscroll as ->. exact Hs.
Qed.


End MenuDiscipline.

(** ** The menu as it is rendered *)

Section RenderedMenu.
Import Js Dom Navigation Observe Lifecycle.

Context {Host : Type} (ctaButton : CTAButton Host)
        (links : list NavigationLink)
        (hamburgerButton : option Element)
        (elementIds : gmap string Element).

Local Abbreviation menuPanel := (renderedPanel links).
Local Abbreviation dispatch := (Navigation.dispatch ctaButton menuPanel hamburgerButton elementIds).
Local Abbreviation step := (Navigation.step ctaButton menuPanel hamburgerButton elementIds).
Local Abbreviation reachable := (Navigation.reachable ctaButton menuPanel hamburgerButton elementIds).
Local Abbreviation Nav := (@Navigation.Nav Host).

Lemma renderedPanel_head : head (renderedPanel links) = Some CloseButton.
Proof. done. Qed.

Lemma renderedPanel_last : last (renderedPanel links) = Some MenuCta.
Proof.
  unfold renderedPanel. rewrite app_comm_cons. apply last_snoc.
Qed.

(** X12. In the menu as the component renders it, whatever the links:
    opening the menu puts the focus on the panel's close button; Tab on
    the call-to-action wraps to the close button and Shift+Tab on the close
    button wraps to the call-to-action, both with the default prevented;
    and on a link of the menu a Tab press, with or without Shift, is left
    to the browser. *)
Theorem rendered_menu_cycle (s : Nav) :
  reachable s →
  (isMobileMenuOpen s = false →
   activeElement (document (step ClickHamburger s)) = Some CloseButton) ∧
  (isMobileMenuOpen s = true →
   (activeElement (document s) = Some MenuCta →
    dispatch (Keydown "Tab" false) s
    = (refocused CloseButton s, Normal (preventDefault fresh))) ∧
   (activeElement (document s) = Some CloseButton →
    dispatch (Keydown "Tab" true) s
    = (refocused MenuCta s, Normal (preventDefault fresh))) ∧
   (∀ i shift, activeElement (document s) = Some (MenuLink i) →
               dispatch (Keydown "Tab" shift) s = (s, Normal fresh))).
Proof.
  intros Hs%reachable_consistent. split.
  - intros Hclosed. unfold Navigation.step, Navigation.dispatch.
    cbn [Navigation.handle returned fst Button.dataLayer Button.world].
    rewrite (settle_open menuPanel); [done|done|done|].
    cbn. by rewrite Hclosed.
  - intros Hopen. repeat split.
    + intros Hactive. unfold Navigation.dispatch.
      rewrite (handle_tab_open ctaButton menuPanel) by done.
      rewrite renderedPanel_head, renderedPanel_last.
      unfold handleTabKey. cbn. rewrite isActive_true by done.
      cbn. f_equal. apply (settle_refocused menuPanel CloseButton s).
    + intros Hactive. unfold Navigation.dispatch.
      rewrite (handle_tab_open ctaButton menuPanel) by done.
      rewrite renderedPanel_head, renderedPanel_last.
      unfold handleTabKey. cbn. rewrite isActive_true by done.
      cbn. f_equal. apply (settle_refocused menuPanel MenuCta s).
    + intros i shift Hactive. unfold Navigation.dispatch.
      rewrite (handle_tab_open ctaButton menuPanel) by done.
      rewrite renderedPanel_head, renderedPanel_last.
      unfold handleTabKey. cbn.
      destruct shift; rewrite isActive_false by (by rewrite Hactive); cbn;
        by rewrite settle_nothing.
Qed.

End RenderedMenu.

(** ** Class names *)

Section ClassNameFacts.
Import ClassNames.

Implicit Types (s t : list N) (c : N) (ts : list (list N)).

(** *** Tokens *)

Lemma tokens_cons_word c s :
  isSpace c = false → ∃ t ts, tokens (c :: s) = (c :: t) :: ts.
Proof.
  intros Hc. cbn [tokens]. rewrite Hc.
  destruct (boundary s); [by eexists _, _|].
  destruct (tokens s) as [|t ts]; by eexists _, _.
Qed.

Lemma tokens_app_space s1 c s2 :
  isSpace c = true → tokens (s1 ++ c :: s2) = tokens s1 ++ tokens s2.
Proof.
  intros Hc. induction s1 as [|d s1 IH]; cbn [app tokens].
  - by rewrite Hc.
  - destruct (isSpace d) eqn:Hd; [exact IH|].
    assert (boundary (s1 ++ c :: s2) = boundary s1) as ->.
    { destruct s1; cbn; [exact Hc|done]. }
    rewrite IH. destruct (boundary s1) eqn:Hb; [done|].
    destruct s1 as [|d' s1]; [done|]. cbn in Hb.
    destruct (tokens_cons_word d' s1 Hb) as (t & ts & ->). done.
Qed.

Lemma tokens_snoc_space s c : isSpace c = true → tokens (s ++ [c]) = tokens s.
Proof. intros Hc. by rewrite tokens_app_space, app_nil_r. Qed.

Lemma tokens_all_space s : tokens s = [] → forallb isSpace s = true.
Proof.
  induction s as [|c s IH]; [done|]. intros H. cbn [forallb].
  destruct (isSpace c) eqn:Hc.
  - cbn [tokens] in H. rewrite Hc in H. by rewrite IH.
  - destruct (tokens_cons_word c s Hc) as (t & ts & Heq). congruence.
Qed.

Lemma tokens_trailing s : s ≠ [] → trailing s = false → tokens s ≠ [].
Proof.
  intros Hne Htrail Htok. apply tokens_all_space in Htok.
  destruct s as [|c s _] using rev_ind; [done|].
  unfold trailing in Htrail. rewrite last_snoc in Htrail.
  rewrite forallb_app in Htok. cbn in Htok.
  apply andb_prop in Htok as [_ Hc]. by rewrite Htrail in Hc.
Qed.

(** *** [trim] *)

Lemma tokens_trimStart s : tokens (trimStart s) = tokens s.
Proof.
  induction s as [|c s IH]; [done|]. cbn [trimStart].
  destruct (isSpace c) eqn:Hc; [|done]. cbn [tokens]. by rewrite Hc.
Qed.

Lemma leading_trimStart s : leading (trimStart s) = false.
Proof.
  induction s as [|c s IH]; [done|]. cbn [trimStart].
  destruct (isSpace c) eqn:Hc; [exact IH|]. exact Hc.
Qed.

Lemma trimEnd_snoc s c :
  trimEnd (s ++ [c]) = if isSpace c then trimEnd s else s ++ [c].
Proof.
  unfold trimEnd. rewrite rev_app_distr. cbn [rev app trimStart].
  destruct (isSpace c); [done|]. cbn [rev]. by rewrite rev_involutive.
Qed.

Lemma tokens_trimEnd s : tokens (trimEnd s) = tokens s.
Proof.
  induction s as [|c s IH] using rev_ind; [done|].
  rewrite trimEnd_snoc. destruct (isSpace c) eqn:Hc; [|done].
  by rewrite tokens_snoc_space.
Qed.

Lemma trailing_trimEnd s : trailing (trimEnd s) = false.
Proof.
  induction s as [|c s IH] using rev_ind; [done|].
  rewrite trimEnd_snoc. destruct (isSpace c) eqn:Hc; [exact IH|].
  unfold trailing. by rewrite last_snoc.
Qed.

Lemma leading_trimEnd s : leading s = false → leading (trimEnd s) = false.
Proof.
  induction s as [|c s IH] using rev_ind; [done|].
  rewrite trimEnd_snoc. intros Hlead.
  destruct (isSpace c) eqn:Hc; [|exact Hlead].
  apply IH. destruct s as [|d s]; [|exact Hlead].
  cbn in Hlead. congruence.
Qed.

Lemma trailing_cons c s :
  trailing (c :: s) = match s with [] => isSpace c | _ => trailing s end.
Proof. unfold trailing. by destruct s. Qed.

(** *** Replacing the runs *)

Lemma unwords_cons_space ts :
  ts ≠ [] → concat (map (cons 32%N) ts) = 32%N :: unwords ts.
Proof. by destruct ts. Qed.

Lemma replaceRuns_unwords s inRun :
  trailing s = false →
  replaceRuns inRun s
  = (if leading s && negb inRun then [32%N] else []) ++ unwords (tokens s).
Proof.
  revert inRun. induction s as [|c s IH]; intros inRun Htrail; [done|].
  rewrite trailing_cons in Htrail.
  cbn [replaceRuns tokens leading]. destruct (isSpace c) eqn:Hc.
  - destruct s as [|d s]; [congruence|].
    rewrite (IH true Htrail), andb_false_r. cbn [app].
    by destruct inRun.
  - cbn [andb app]. destruct s as [|d s]; [done|].
    rewrite (IH false Htrail), andb_true_r. cbn [boundary leading].
    destruct (isSpace d) eqn:Hd.
    + cbn [unwords app]. f_equal.
      rewrite unwords_cons_space; [done|]. by apply tokens_trailing.
    + destruct (tokens_cons_word d s Hd) as (t & ts & ->). done.
Qed.

Lemma normalize_unwords s : normalize s = unwords (tokens s).
Proof.
  unfold normalize, replaceSpaces, trim.
  rewrite replaceRuns_unwords by apply trailing_trimEnd.
  rewrite leading_trimEnd by apply leading_trimStart.
  cbn [andb app]. by rewrite tokens_trimEnd, tokens_trimStart.
Qed.

(** *** The tokens are the class names *)

Lemma tokens_words s : Forall isWord (tokens s).
Proof.
  induction s as [|c s IH]; [by constructor|]. cbn [tokens].
  destruct (isSpace c) eqn:Hc; [exact IH|].
  destruct (boundary s).
  - constructor; [|exact IH]. split; [done|]. by repeat constructor.
  - destruct (tokens s) as [|t ts].
    + repeat constructor; done.
    + inversion IH as [|? ? [Hne Ht] Hts]; subst.
      constructor; [|exact Hts]. split; [done|]. by constructor.
Qed.

Lemma concat_tokens s :
  concat (tokens s) = filter (λ c, isSpace c = false) s.
Proof.
  induction s as [|c s IH]; [done|]. cbn [tokens]. rewrite filter_cons.
  destruct (isSpace c) eqn:Hc.
  - rewrite decide_False by done. exact IH.
  - rewrite decide_True by done. rewrite <- IH.
    destruct (boundary s); [done|]. by destruct (tokens s).
Qed.

Lemma tokens_word t : isWord t → tokens t = [t].
Proof.
  intros [Hne Ht]. induction Ht as [|c t Hc Ht IH]; [done|].
  cbn [tokens]. rewrite Hc. destruct t as [|d t]; [done|].
  inversion Ht as [|? ? Hd _]; subst. cbn [boundary]. rewrite Hd.
  by rewrite IH.
Qed.

Lemma tokens_unwords ts : Forall isWord ts → tokens (unwords ts) = ts.
Proof.
  induction 1 as [|t ts Ht Hts IH]; [done|]. cbn [unwords].
  destruct Hts as [|t' ts Ht' Hts].
  - cbn. rewrite app_nil_r. by apply tokens_word.
  - cbn [map concat app] in *. rewrite tokens_app_space by done.
    rewrite tokens_word by done. cbn [app]. f_equal. exact IH.
Qed.

(** X14. [.trim().replace(/\s+/g, ' ')] keeps the class names and nothing
    else: its result is the class names of its input (the maximal runs of
    characters that are not white space, none empty, none split, merged,
    reordered or lost) joined by single spaces, with no white space before
    the first or after the last. *)
Theorem normalize_joins_the_class_names s :
  normalize s = unwords (tokens s) ∧
  Forall isWord (tokens s) ∧
  concat (tokens s) = filter (λ c, isSpace c = false) s.
Proof.
  split; [apply normalize_unwords|]. split; [apply tokens_words|].
  apply concat_tokens.
Qed.

(** X15. Normalising is idempotent and does not change the class list: a
    string that went through [.trim().replace(/\s+/g, ' ')] comes out of a
    second pass unchanged, with the same class names as the original. *)
Theorem normalize_idempotent s :
  tokens (normalize s) = tokens s ∧
  normalize (normalize s) = normalize s.
Proof.
  assert (tokens (normalize s) = tokens s) as Htok.
  { rewrite normalize_unwords. apply tokens_unwords, tokens_words. }
  split; [exact Htok|].
  by rewrite (normalize_unwords (normalize s)), Htok, normalize_unwords.
Qed.

(** *** The button's class attribute *)

Lemma tokens_line s : tokens (line ++ s) = tokens s.
Proof. done. Qed.

Lemma tokens_app_line s1 s2 : tokens (s1 ++ line ++ s2) = tokens s1 ++ tokens s2.
Proof.
  unfold line. cbn [app]. by rewrite tokens_app_space.
Qed.

Lemma tokens_template size disabled variant className :
  tokens (template size disabled variant className)
  = map units fixedClasses
    ++ tokens (units (getSizeStyles size))
    ++ tokens (units (getDisabledStyles disabled))
    ++ tokens (units (getVariantStyles variant))
    ++ tokens className.
Proof.
  unfold template. rewrite tokens_line, !tokens_app_line.
  rewrite tokens_app_space by done. cbn [app]. by rewrite app_nil_r.
Qed.

(** X16. The [className] of a rendered button is, separated by single
    spaces and in this order: the fourteen classes every button has, the
    classes of its size, of its disabled state and of its variant, and
    then the class names of the [className] prop, each one intact. *)
Theorem baseStyles_class_list size disabled variant className :
  baseStyles size disabled variant className
  = unwords
      (map units fixedClasses
       ++ tokens (units (getSizeStyles size))
       ++ tokens (units (getDisabledStyles disabled))
       ++ tokens (units (getVariantStyles variant))
       ++ tokens className).
Proof.
  unfold baseStyles. by rewrite normalize_unwords, tokens_template.
Qed.

(** X17. Every button, of any size and variant, disabled or not and
    whatever [className] it is given, carries the class [min-h-[44px]],
    the minimum touch target, and the focus ring classes. *)
Theorem every_button_has_the_touch_target size disabled variant className :
  units "min-h-[44px]" ∈ tokens (baseStyles size disabled variant className) ∧
  units "focus:ring-2" ∈ tokens (baseStyles size disabled variant className).
Proof.
  unfold baseStyles.
  assert (tokens (normalize (template size disabled variant className))
          = tokens (template size disabled variant className)) as ->.
  { rewrite normalize_unwords. apply tokens_unwords, tokens_words. }
  rewrite tokens_template. split.
  - apply elem_of_app. right. apply elem_of_app. left.
    destruct size as [[]|]; vm_compute; set_solver.
  - apply elem_of_app. left. vm_compute. set_solver.
Qed.

End ClassNameFacts.

(** ** The icon's colour class *)

Section IconFacts.
Import Js Icon.


End IconFacts.

(** ** The contact form *)

Section ContactFacts.
Import Contact.

Implicit Types (formData : gmap string string) (target : Target).

(** X19. A change of one input rewrites that field and no other: after
    [handleInputChange] the field named by the input holds the input's
    value, every other field holds what it held, and, when the name is one
    the form already has, the form has the same fields as before. *)
Theorem change_rewrites_one_field target formData :
  shown (handleInputChange target formData) (name target) = Some (value target) ∧
  (∀ field, field ≠ name target →
     shown (handleInputChange target formData) field = shown formData field) ∧
  (is_Some (shown formData (name target)) →
   dom (handleInputChange target formData) = dom formData).
Proof.
  unfold handleInputChange, shown. split; [apply lookup_insert_eq|]. split.
  - intros field Hne. by apply lookup_insert_ne.
  - intros Hsome%elem_of_dom. rewrite dom_insert_L.
    apply subseteq_union_1_L. by apply singleton_subseteq_l.
Qed.

Lemma typed_snoc changes target formData :
  typed (changes ++ [target]) formData
  = handleInputChange target (typed changes formData).
Proof. unfold typed. by rewrite foldl_app. Qed.

(** X20. What an input of the form shows is the last value typed into it:
    after any sequence of changes, a field holds the value of the last
    change made under its name, and what it held at the start when there
    was none. *)
Theorem field_shows_last_value changes formData field :
  shown (typed changes formData) field
  = match last (filter (λ target, name target = field) changes) with
    | Some target => Some (value target)
    | None => shown formData field
    end.
Proof.
  induction changes as [|target changes IH] using rev_ind; [done|].
  rewrite typed_snoc, filter_app, filter_cons, filter_nil.
  destruct (decide (name target = field)) as [<-|Hne].
  - rewrite last_snoc. apply lookup_insert_eq.
  - rewrite app_nil_r, <- IH. unfold shown, handleInputChange.
    by apply lookup_insert_ne.
Qed.

(** X21. The form never loses or gains a field: as long as the changes
    come from inputs named after the five fields, as the rendered ones are,
    every field stays defined, so every controlled input always has a
    value to show. *)
Theorem fields_stay_defined changes :
  Forall (λ target, name target ∈ fields) changes →
  dom (typed changes initial) = list_to_set fields ∧
  ∀ field, field ∈ fields → is_Some (shown (typed changes initial) field).
Proof.
  intros Hnames.
  assert (dom (typed changes initial) = list_to_set fields) as Hdom.
  { induction changes as [|target changes IH] using rev_ind.
    - unfold typed, initial, fields. cbn [foldl].
      rewrite !dom_insert_L, dom_singleton_L. cbn [list_to_set].
      by rewrite (right_id_L ∅ (∪)).
    - rewrite Forall_app, Forall_singleton in Hnames.
      destruct Hnames as [Hrest Hname].
      rewrite typed_snoc. unfold handleInputChange.
      rewrite dom_insert_L, IH by done.
      apply subseteq_union_1_L, singleton_subseteq_l.
      by apply elem_of_list_to_set. }
  split; [exact Hdom|]. intros field Hfield.
  unfold shown. apply elem_of_dom. rewrite Hdom.
  by apply elem_of_list_to_set.
Qed.

End ContactFacts.

(** ** The hero's buttons *)

Section HeroFacts.
Import Js Observe Lifecycle.

Context {W : Type}.

Lemma orElse_nonempty (s : option string) (d : string) : d ≠ "" → orElse s d ≠ "".
Proof.
  intros Hd. unfold orElse, truthy. destruct s as [s|]; [|done].
  destruct (String.eqb s "") eqn:Hs; cbn; [done|]. by apply String.eqb_neq.
Qed.

Lemma hero_click (fallbackId : string) (cta : Hero.Cta) e (pg : Button.Page W) es :
  fallbackId ≠ "" →
  Button.dataLayer pg = Some (Button.Extensible es) →
  Button.handleClick (Hero.button fallbackId cta) e pg
  = ({| Button.dataLayer :=
          Some (Button.Extensible
                  (es ++ [ctaClickEvent
                            (orElse (Hero.analyticsId cta) fallbackId)
                            "hero" (Hero.label cta)]));
        Button.world := Button.world pg |}, Normal e).
Proof.
  intros Hid Hdl. unfold Button.handleClick, mbind, Eff_bind.
  cbn [Button.disabled Hero.button].
  rewrite (track_pushes _ _ (orElse (Hero.analyticsId cta) fallbackId) es);
    [done|done| |done].
  by apply orElse_nonempty.
Qed.

(** X22. The hero's buttons are always tracked, identifier given or not:
    on a page whose data layer is an ordinary array, a click on the primary
    or on the secondary button appends exactly one 'cta_click' event,
    labelled with the call-to-action's identifier or, when it has none or
    an empty one, 'hero-primary-cta' or 'hero-secondary-cta', located at
    'hero' and carrying the label as text. The handler does nothing else:
    the caller's state and the event are as they were, so the link is
    followed. *)
Theorem hero_clicks_are_tracked (cta : Hero.Cta) e (pg : Button.Page W) es :
  Button.dataLayer pg = Some (Button.Extensible es) →
  Button.handleClick (Hero.primaryButton cta) e pg
  = ({| Button.dataLayer :=
          Some (Button.Extensible
                  (es ++ [ctaClickEvent
                            (orElse (Hero.analyticsId cta) "hero-primary-cta")
                            "hero" (Hero.label cta)]));
        Button.world := Button.world pg |}, Normal e) ∧
  Button.handleClick (Hero.secondaryButton cta) e pg
  = ({| Button.dataLayer :=
          Some (Button.Extensible
                  (es ++ [ctaClickEvent
                            (orElse (Hero.analyticsId cta) "hero-secondary-cta")
                            "hero" (Hero.label cta)]));
        Button.world := Button.world pg |}, Normal e).
Proof.
  intros Hdl. split; by apply hero_click.
Qed.

End HeroFacts.

(** ** The error boundary *)

Section ErrorBoundaryFacts.
Import ErrorBoundary.

(** X23. An error caught by the boundary and a reset make a round trip:
    after the catch the boundary holds the error and its component stack
    and renders a fallback, never its children; the reset puts the
    constructor's state back, and the children are rendered again. The
    default fallback shows the error's details only in development. *)
Theorem catch_then_reset env err info fallback s :
  let caught := (catch env err info s).1 in
  hasError caught = true ∧
  error caught = Some err ∧
  errorInfo caught = Some info ∧
  render env fallback caught ≠ Children ∧
  (∀ details, render env fallback caught = DefaultFallback (Some details) →
              development env = true ∧ details = err) ∧
  handleReset caught = initial ∧
  render env fallback (handleReset caught) = Children.
Proof.
  cbn. repeat split.
  - unfold render. cbn. by destruct (present fallback).
  - revert H. unfold render. cbn. destruct (present fallback); [done|].
    by destruct (development env).
  - revert H. unfold render. cbn. destruct (present fallback); [done|].
    destruct (development env); congruence.
Qed.

(** X24. Every caught error is reported exactly once: to Sentry, with the
    component stack, when [window.Sentry] is there, and otherwise as one
    console line with the error's message; never both and never neither.
    Outside development nothing else is written. *)
Theorem caught_error_is_reported_once env err info s :
  let outputs := (catch env err info s).2 in
  length (filter (λ o, isReport o = true) outputs) = 1 ∧
  (sentry env = true →
   filter (λ o, isReport o = true) outputs
   = [CaptureException err (componentStack info)]) ∧
  (sentry env = false →
   filter (λ o, isReport o = true) outputs
   = [ConsoleError "Sentry not configured. Error:" (message err)]) ∧
  (development env = false → length outputs = 1).
Proof.
  cbn. unfold reportToSentry.
  destruct (development env), (sentry env); cbn; repeat split; done.
Qed.

End ErrorBoundaryFacts.

(** ** The further properties on the sample pages *)

Section OnTheFurtherPages.
Import Js Dom Navigation Observe Lifecycle.

Lemma opening_focuses_first_witness :
  Sample.reachable Sample.closed ∧
  isMobileMenuOpen Sample.closed = false ∧
  activeElement (document (Sample.step ClickHamburger Sample.closed))
  = Some CloseButton.
Proof.
  split; [apply closed_reachable|]. split; [reflexivity|].
  apply (opening_focuses_first Sample.ctaButton Sample.menuPanel
           (Some HamburgerButton) Sample.elementIds Sample.closed
           closed_reachable eq_refl).
Defined.

Lemma keydown_inert_witness :
  Sample.reachable Sample.closed ∧
  isMobileMenuOpen Sample.closed = false ∧
  Sample.dispatch (Keydown "Tab" false) Sample.closed
  = (Sample.closed, Normal fresh).
Proof.
  split; [apply closed_reachable|]. split; [reflexivity|].
  apply (keydown_inert Sample.ctaButton Sample.menuPanel
           (Some HamburgerButton) Sample.elementIds Sample.closed "Tab" false
           closed_reachable).
  left. reflexivity.
Defined.

Lemma openedEmpty_reachable : Pages.reachableEmpty Pages.openedEmpty.
Proof. apply reachable_step, reachable_mount. Qed.

Lemma empty_panel_passes_tab_witness :
  Pages.reachableEmpty Pages.openedEmpty ∧
  isMobileMenuOpen Pages.openedEmpty = true ∧
  Pages.dispatchEmpty (Keydown "Tab" true) Pages.openedEmpty
  = (Pages.openedEmpty, Normal fresh).
Proof.
  split; [apply openedEmpty_reachable|]. split; [reflexivity|].
  apply (empty_panel_passes_tab Sample.ctaButton [] (Some HamburgerButton)
           Sample.elementIds Pages.openedEmpty true eq_refl
           openedEmpty_reachable eq_refl).
Defined.



Lemma only_cta_reaches_analytics_witness :
  isCta (ClickLink "#contact") = false ∧
  dataLayer (Sample.step (ClickLink "#contact") Sample.opened)
  = Some (Button.Extensible []).
Proof.
  split; [reflexivity|].
  apply (only_cta_reaches_analytics Sample.ctaButton Sample.menuPanel
           (Some HamburgerButton) Sample.elementIds (ClickLink "#contact")
           Sample.opened eq_refl).
Defined.

Lemma closeButton_was_focused : CloseButton ∈ focusCalls (document Sample.opened).
Proof. vm_compute. apply list_elem_of_here. Qed.

Lemma focus_only_on_trigger_and_panel_ends_witness :
  Sample.reachable Sample.opened ∧
  CloseButton ∈ focusCalls (document Sample.opened) ∧
  (Some HamburgerButton = Some CloseButton
   ∨ head Sample.menuPanel = Some CloseButton
   ∨ last Sample.menuPanel = Some CloseButton).
Proof.
  split; [apply opened_reachable|]. split; [apply closeButton_was_focused|].
  apply (focus_only_on_trigger_and_panel_ends Sample.ctaButton Sample.menuPanel
           (Some HamburgerButton) Sample.elementIds Sample.opened CloseButton
           opened_reachable closeButton_was_focused).
Defined.

Lemma afterContactLink_reachable : Sample.reachable Pages.afterContactLink.
Proof. apply reachable_step, opened_reachable. Qed.

Lemma contact_was_scrolled :
  PageElement 2 ∈ scrolled (document Pages.afterContactLink).
Proof. vm_compute. apply list_elem_of_here. Qed.

Lemma scroll_only_to_found_elements_witness :
  Sample.reachable Pages.afterContactLink ∧
  PageElement 2 ∈ scrolled (document Pages.afterContactLink) ∧
  ∃ id, getElementById Sample.elementIds id = Some (PageElement 2).
Proof.
  split; [apply afterContactLink_reachable|].
  split; [apply contact_was_scrolled|].
  apply (scroll_only_to_found_elements Sample.ctaButton Sample.menuPanel
           (Some HamburgerButton) Sample.elementIds Pages.afterContactLink
           (PageElement 2) afterContactLink_reachable contact_was_scrolled).
Defined.

Lemma rendered_menu_cycle_witness :
  Sample.reachable Sample.opened ∧
  isMobileMenuOpen Sample.opened = true ∧
  activeElement (document Sample.opened) = Some CloseButton ∧
  Sample.dispatch (Keydown "Tab" true) Sample.opened
  = (refocused MenuCta Sample.opened, Normal (preventDefault fresh)).
Proof.
  split; [apply opened_reachable|]. do 2 (split; [reflexivity|]).
  destruct (rendered_menu_cycle Sample.ctaButton Sample.links
              (Some HamburgerButton) Sample.elementIds Sample.opened
              opened_reachable) as [_ Hopen].
  destruct (Hopen eq_refl) as (_ & Hback & _).
  exact (Hback eq_refl).
Defined.


Lemma click_pushes_one_event_witness :
  Button.disabled Sample.trackedButton = false ∧
  Button.analyticsId Sample.trackedButton = Some "hero-cta" ∧
  "hero-cta" ≠ "" ∧
  Button.dataLayer
    (Button.handleClick Sample.trackedButton fresh
       {| Button.dataLayer := Some (Button.Extensible []); Button.world := [] |}).1
  = Some (Button.Extensible [ctaClickEvent "hero-cta" "demo-page" "Tracked Button"]).
Proof.
  assert ("hero-cta" ≠ "") as Hne by (intros H; discriminate H).
  do 2 (split; [reflexivity|]). split; [exact Hne|].
  apply (click_pushes_one_event Sample.trackedButton fresh
           {| Button.dataLayer := Some (Button.Extensible []); Button.world := [] |}
           "hero-cta" [] eq_refl eq_refl Hne eq_refl).
Defined.


End OnTheFurtherPages.

Section OnTheOtherComponents.
Import Js Observe Lifecycle.


Lemma change_rewrites_one_field_witness :
  Contact.shown
    (Contact.handleInputChange
       {| Contact.name := "email"; Contact.value := "ada@example.org" |}
       Contact.initial) "email"
  = Some "ada@example.org" ∧
  "company" ≠ "email" ∧
  Contact.shown
    (Contact.handleInputChange
       {| Contact.name := "email"; Contact.value := "ada@example.org" |}
       Contact.initial) "company"
  = Contact.shown Contact.initial "company".
Proof.
  assert ("company" ≠ "email") as Hne by (intros H; discriminate H).
  destruct (change_rewrites_one_field
              {| Contact.name := "email"; Contact.value := "ada@example.org" |}
              Contact.initial) as (Hfield & Hothers & _).
  split; [exact Hfield|]. split; [exact Hne|]. exact (Hothers "company" Hne).
Defined.

Lemma typing_names_fields :
  Forall (λ target, Contact.name target ∈ Contact.fields) Pages.typing.
Proof. repeat constructor; unfold Contact.fields; cbn; set_solver. Qed.

Lemma fields_stay_defined_witness :
  Forall (λ target, Contact.name target ∈ Contact.fields) Pages.typing ∧
  dom (Contact.typed Pages.typing Contact.initial) = list_to_set Contact.fields.
Proof.
  split; [apply typing_names_fields|].
  apply (fields_stay_defined Pages.typing typing_names_fields).
Defined.

Lemma hero_clicks_are_tracked_witness :
  Button.handleClick (Hero.primaryButton Pages.anonymous) Dom.fresh
    {| Button.dataLayer := Some (Button.Extensible []); Button.world := tt |}
  = ({| Button.dataLayer :=
          Some (Button.Extensible
                  [ctaClickEvent "hero-primary-cta" "hero" "Get Started"]);
        Button.world := tt |}, Normal Dom.fresh).
Proof.
  apply (hero_clicks_are_tracked Pages.anonymous Dom.fresh
           {| Button.dataLayer := Some (Button.Extensible []); Button.world := tt |}
           [] eq_refl).
Defined.

Lemma catch_then_reset_witness :
  ErrorBoundary.render Pages.production None
    (ErrorBoundary.catch Pages.production Pages.renderError Pages.inHero
       ErrorBoundary.initial).1
  ≠ ErrorBoundary.Children ∧
  ErrorBoundary.handleReset
    (ErrorBoundary.catch Pages.production Pages.renderError Pages.inHero
       ErrorBoundary.initial).1
  = ErrorBoundary.initial.
Proof.
  destruct (catch_then_reset Pages.production Pages.renderError Pages.inHero
              None ErrorBoundary.initial) as (_ & _ & _ & Hview & _ & Hreset & _).
  split; [exact Hview|exact Hreset].
Defined.

Lemma caught_error_is_reported_once_witness :
  ErrorBoundary.sentry Pages.production = true ∧
  filter (λ o, ErrorBoundary.isReport o = true)
    (ErrorBoundary.catch Pages.production Pages.renderError Pages.inHero
       ErrorBoundary.initial).2
  = [ErrorBoundary.CaptureException Pages.renderError "at Hero"].
Proof.
  split; [reflexivity|].
  destruct (caught_error_is_reported_once Pages.production Pages.renderError
              Pages.inHero ErrorBoundary.initial) as (_ & Hsentry & _).
  exact (Hsentry eq_refl).
Defined.

End OnTheOtherComponents.
